(** * Earthquake visualizer: the client-side state and view logic

    A shallow embedding of [src/lib/usgs.ts] (the feed client), of
    [src/types/earthquake.ts] (the data model) and of the logic of the [App]
    component of [src/App.tsx]: the filter, the sort, the pagination, the
    page-number window, the effects and the event handlers.

    Conventions.
    - A JavaScript string is a [string]: its characters are code units below
      256 (the Latin-1 range), on which [trim] and [toLowerCase] follow
      ECMAScript.
    - A magnitude is a JavaScript number, an IEEE 754 double: [float] with
      the primitive comparison, so that [NaN] and the infinities behave as in
      the source.
    - Timestamps, page numbers and lengths are integral JavaScript numbers:
      [Z], with [Math.floor], [Math.ceil] and [Math.max] on them.
    - [x ?? d] on a nullable value is [or_else x d]. *)

From Stdlib Require Import List ZArith Lia Bool String Ascii Floats.
From Stdlib Require Import Permutation Sorted DecimalString DecimalZ.
From Stdlib Require Uint63.
Import ListNotations.

Local Open Scope Z_scope.

(** ** JavaScript helpers *)

Definition or_else {A : Type} (x : option A) (d : A) : A :=
  match x with
  | Some v => v
  | None => d
  end.

Module JsString.

Local Open Scope string_scope.

(** White space and line terminators of ECMAScript among the code units
    below 256: TAB, LF, VT, FF, CR, SP and NBSP. *)
Definition isWhiteSpace (c : ascii) : bool :=
  let n := nat_of_ascii c in
  (Nat.leb 9 n && Nat.leb n 13) || Nat.eqb n 32 || Nat.eqb n 160.

Fixpoint trimStart (s : string) : string :=
  match s with
  | EmptyString => EmptyString
  | String c s' => if isWhiteSpace c then trimStart s' else s
  end.

Fixpoint trimEnd (s : string) : string :=
  match s with
  | EmptyString => EmptyString
  | String c s' =>
      match trimEnd s' with
      | EmptyString => if isWhiteSpace c then EmptyString else String c EmptyString
      | r => String c r
      end
  end.

(** [String.prototype.trim] *)
Definition trim (s : string) : string := trimEnd (trimStart s).

(** Lower case of one code unit: [A]-[Z], and the Latin-1 capitals
    U+00C0-U+00DE except the multiplication sign U+00D7. *)
Definition lowerChar (c : ascii) : ascii :=
  let n := nat_of_ascii c in
  if (Nat.leb 65 n && Nat.leb n 90)
     || (Nat.leb 192 n && Nat.leb n 222 && negb (Nat.eqb n 215))
  then ascii_of_nat (n + 32)
  else c.

(** [String.prototype.toLowerCase] *)
Fixpoint toLowerCase (s : string) : string :=
  match s with
  | EmptyString => EmptyString
  | String c s' => String (lowerChar c) (toLowerCase s')
  end.

(** [String.prototype.includes]: [q] occurs in [s] at some offset. *)
Fixpoint includes (s q : string) : bool :=
  prefix q s ||
  match s with
  | EmptyString => false
  | String _ s' => includes s' q
  end.

(** Truthiness of a string: the empty string is the only falsy one. *)
Definition truthy (s : string) : bool :=
  match s with
  | EmptyString => false
  | String _ _ => true
  end.

(** [q] is a substring of [s]. *)
Definition Substring (q s : string) : Prop :=
  exists pre post : string, s = pre ++ q ++ post.

End JsString.

(** ** Data model ([src/types/earthquake.ts]) *)

Inductive TimeRange := hour | day | week | month.

Definition TimeRange_eqb (a b : TimeRange) : bool :=
  match a, b with
  | hour, hour | day, day | week, week | month, month => true
  | _, _ => false
  end.

Record EarthquakeProperties := {
  mag : option float;
  place : option string;
  time : option Z;
  url : option string;
  tsunami : option Z;
  sig : option Z
}.

Record EarthquakeFeature := {
  id : string;
  properties : EarthquakeProperties;
  coordinates : float * float * float  (* [lon, lat, depth] *)
}.

Record EarthquakeGeoJSON := {
  features : list EarthquakeFeature
}.

(** ** The filter ([filtered] in [App]) *)

Section Filter.

Variable minMag : float.
Variable query : string.

(** The callback of [data.filter]. *)
Definition passes (f : EarthquakeFeature) : bool :=
  let magOk := (minMag <=? or_else (mag (properties f)) neg_infinity)%float in
  let q := JsString.toLowerCase (JsString.trim query) in
  let placeOk :=
    if JsString.truthy q
    then JsString.includes
           (JsString.toLowerCase (or_else (place (properties f)) EmptyString)) q
    else true in
  magOk && placeOk.

Definition filtered (data : list EarthquakeFeature) : list EarthquakeFeature :=
  filter passes data.

End Filter.

Definition pointsMemo (fs : list EarthquakeFeature) : list (float * float) :=
  map (fun f => let '(lon, lat, _) := coordinates f in (lat, lon)) fs.

(** ** The sort ([sortedByTimeDesc] in [App]) *)

(** [Array.prototype.sort] with a comparator: a stable sort (ECMAScript 2019),
    here by insertion.  [cmp a b <= 0] keeps [a] before [b].  With a
    comparator that is a difference of keys the result does not depend on the
    algorithm: it is the one ordered rearrangement that keeps elements of equal
    key in their input order (see [sort_perm], [sortedByTimeDesc_sorted] and
    [sortedByTimeDesc_stable]). *)
Section Sort.

Context {A : Type} (cmp : A -> A -> Z).

Fixpoint insert (x : A) (l : list A) : list A :=
  match l with
  | [] => [x]
  | y :: l' => if cmp x y <=? 0 then x :: l else y :: insert x l'
  end.

Definition sort (l : list A) : list A := fold_right insert [] l.

End Sort.

Definition timeOf (f : EarthquakeFeature) : Z := or_else (time (properties f)) 0.

(** The comparator [(a, b) => (b.properties.time ?? 0) - (a.properties.time ?? 0)] *)
Definition byTimeDesc (a b : EarthquakeFeature) : Z := timeOf b - timeOf a.

Definition sortedByTimeDesc (fs : list EarthquakeFeature) : list EarthquakeFeature :=
  sort byTimeDesc fs.

(** ** Pagination ([totalPages], [pageItems]) *)

(** [Array.prototype.slice(start, end)]: negative indices count from the end,
    both are clamped to the length, and an empty range gives [[]]. *)
Definition slice {A : Type} (l : list A) (start end_ : Z) : list A :=
  let len := Z.of_nat (List.length l) in
  let k := if start <? 0 then Z.max (len + start) 0 else Z.min start len in
  let final := if end_ <? 0 then Z.max (len + end_) 0 else Z.min end_ len in
  firstn (Z.to_nat (final - k)) (skipn (Z.to_nat k) l).

(** [Math.ceil(a / b)] on integers, for a positive [b]. *)
Definition ceil_div (a b : Z) : Z := - ((- a) / b).

Definition pageSize : Z := 9.

Definition totalPages (sorted : list EarthquakeFeature) : Z :=
  Z.max 1 (ceil_div (Z.of_nat (List.length sorted)) pageSize).

Definition pageItems (sorted : list EarthquakeFeature) (page : Z)
  : list EarthquakeFeature :=
  let start := (page - 1) * pageSize in
  slice sorted start (start + pageSize).

(** ** The page-number window ([getPageNumbers]) *)

(** [Array.from({ length }, (_, i) => f i)]: a length that is not positive
    gives the empty array. *)
Definition arrayFrom {A : Type} (len : Z) (f : Z -> A) : list A :=
  map (fun i => f (Z.of_nat i)) (seq 0 (Z.to_nat len)).

Definition defaultMax : Z := 7.

Definition getPageNumbers (current total max : Z) : list Z :=
  if total <=? max then arrayFrom total (fun i => i + 1)
  else
    let half := max / 2 in
    let start := Z.max 1 (current - half) in
    let end_ := start + max - 1 in
    if end_ >? total then
      let end_ := total in
      let start := end_ - max + 1 in
      arrayFrom (end_ - start + 1) (fun i => start + i)
    else arrayFrom (end_ - start + 1) (fun i => start + i).

(** ** The feed client ([src/lib/usgs.ts]) *)

Definition FEED_BY_RANGE (range : TimeRange) : string :=
  match range with
  | hour => "https://earthquake.usgs.gov/earthquakes/feed/v1.0/summary/all_hour.geojson"
  | day => "https://earthquake.usgs.gov/earthquakes/feed/v1.0/summary/all_day.geojson"
  | week => "https://earthquake.usgs.gov/earthquakes/feed/v1.0/summary/all_week.geojson"
  | month => "https://earthquake.usgs.gov/earthquakes/feed/v1.0/summary/all_month.geojson"
  end.

(** A thrown value: an [Error] object with its message, or anything else. *)
Inductive JsError :=
| ErrorObj (message : string)
| NonError.

(** A settled promise. *)
Inductive Promise (A : Type) :=
| Resolved (a : A)
| Rejected (e : JsError).

Arguments Resolved {A} a.
Arguments Rejected {A} e.

(** [await]: a rejection leaves the function at once. *)
Definition await {A B : Type} (p : Promise A) (k : A -> Promise B) : Promise B :=
  match p with
  | Resolved a => k a
  | Rejected e => Rejected e
  end.

Notation "'let_await' x ':=' p 'in' k" := (await p (fun x => k))
  (at level 10, x name, p at level 100, k at level 200).

(** What the client reads of a [Response]: its status, and what [json()]
    settles to.  [ok] is true for the statuses 200 to 299 (Fetch standard). *)
Record Response := {
  status : Z;
  json : Promise EarthquakeGeoJSON
}.

Definition ok (response : Response) : bool :=
  (200 <=? status response) && (status response <=? 299).

(** An integral number in a template literal: its decimal digits. *)
Definition numberToString (n : Z) : string := NilZero.string_of_int (Z.to_int n).

(** [`USGS request failed: ${response.status}`] *)
Definition failureMessage (code : Z) : string :=
  ("USGS request failed: " ++ numberToString code)%string.

(** [fetch] is the transport: what the request of a URL settles to. *)
Definition fetchEarthquakes (fetch : string -> Promise Response) (range : TimeRange)
  : Promise EarthquakeGeoJSON :=
  let url := FEED_BY_RANGE range in
  let_await response := fetch url in
  if negb (ok response)
  then Rejected (ErrorObj (failureMessage (status response)))
  else let_await geo := json response in Resolved geo.

(** ** The state of [App] *)

Inductive Theme := light | dark.

(** The [useState] cells of [App], in the order of their declaration. *)
Record AppState := {
  sidebarOpen : bool;
  theme : Theme;
  range : TimeRange;
  minMag : float;
  query : string;
  pendingRange : TimeRange;
  pendingMinMag : float;
  pendingQuery : string;
  data : list EarthquakeFeature;
  loading : bool;
  error : option string;
  selected : option EarthquakeFeature;
  detailsOpen : bool;
  autoFitEnabled : bool;
  page : Z;
  eventsOpen : bool
}.

(** [setX v]: the state with the cell [x] replaced. *)
Definition setSidebarOpen (v : bool) (s : AppState) : AppState :=
  {| sidebarOpen := v; theme := theme s; range := range s;
     minMag := minMag s; query := query s; pendingRange := pendingRange s;
     pendingMinMag := pendingMinMag s; pendingQuery := pendingQuery s;
     data := data s; loading := loading s; error := error s;
     selected := selected s; detailsOpen := detailsOpen s;
     autoFitEnabled := autoFitEnabled s; page := page s;
     eventsOpen := eventsOpen s |}.

Definition setTheme (v : Theme) (s : AppState) : AppState :=
  {| sidebarOpen := sidebarOpen s; theme := v; range := range s;
     minMag := minMag s; query := query s; pendingRange := pendingRange s;
     pendingMinMag := pendingMinMag s; pendingQuery := pendingQuery s;
     data := data s; loading := loading s; error := error s;
     selected := selected s; detailsOpen := detailsOpen s;
     autoFitEnabled := autoFitEnabled s; page := page s;
     eventsOpen := eventsOpen s |}.

Definition setRange (v : TimeRange) (s : AppState) : AppState :=
  {| sidebarOpen := sidebarOpen s; theme := theme s; range := v;
     minMag := minMag s; query := query s; pendingRange := pendingRange s;
     pendingMinMag := pendingMinMag s; pendingQuery := pendingQuery s;
     data := data s; loading := loading s; error := error s;
     selected := selected s; detailsOpen := detailsOpen s;
     autoFitEnabled := autoFitEnabled s; page := page s;
     eventsOpen := eventsOpen s |}.

Definition setMinMag (v : float) (s : AppState) : AppState :=
  {| sidebarOpen := sidebarOpen s; theme := theme s; range := range s;
     minMag := v; query := query s; pendingRange := pendingRange s;
     pendingMinMag := pendingMinMag s; pendingQuery := pendingQuery s;
     data := data s; loading := loading s; error := error s;
     selected := selected s; detailsOpen := detailsOpen s;
     autoFitEnabled := autoFitEnabled s; page := page s;
     eventsOpen := eventsOpen s |}.

Definition setQuery (v : string) (s : AppState) : AppState :=
  {| sidebarOpen := sidebarOpen s; theme := theme s; range := range s;
     minMag := minMag s; query := v; pendingRange := pendingRange s;
     pendingMinMag := pendingMinMag s; pendingQuery := pendingQuery s;
     data := data s; loading := loading s; error := error s;
     selected := selected s; detailsOpen := detailsOpen s;
     autoFitEnabled := autoFitEnabled s; page := page s;
     eventsOpen := eventsOpen s |}.

Definition setPendingRange (v : TimeRange) (s : AppState) : AppState :=
  {| sidebarOpen := sidebarOpen s; theme := theme s; range := range s;
     minMag := minMag s; query := query s; pendingRange := v;
     pendingMinMag := pendingMinMag s; pendingQuery := pendingQuery s;
     data := data s; loading := loading s; error := error s;
     selected := selected s; detailsOpen := detailsOpen s;
     autoFitEnabled := autoFitEnabled s; page := page s;
     eventsOpen := eventsOpen s |}.

Definition setPendingMinMag (v : float) (s : AppState) : AppState :=
  {| sidebarOpen := sidebarOpen s; theme := theme s; range := range s;
     minMag := minMag s; query := query s; pendingRange := pendingRange s;
     pendingMinMag := v; pendingQuery := pendingQuery s; data := data s;
     loading := loading s; error := error s; selected := selected s;
     detailsOpen := detailsOpen s; autoFitEnabled := autoFitEnabled s;
     page := page s; eventsOpen := eventsOpen s |}.

Definition setPendingQuery (v : string) (s : AppState) : AppState :=
  {| sidebarOpen := sidebarOpen s; theme := theme s; range := range s;
     minMag := minMag s; query := query s; pendingRange := pendingRange s;
     pendingMinMag := pendingMinMag s; pendingQuery := v; data := data s;
     loading := loading s; error := error s; selected := selected s;
     detailsOpen := detailsOpen s; autoFitEnabled := autoFitEnabled s;
     page := page s; eventsOpen := eventsOpen s |}.

Definition setData (v : list EarthquakeFeature) (s : AppState) : AppState :=
  {| sidebarOpen := sidebarOpen s; theme := theme s; range := range s;
     minMag := minMag s; query := query s; pendingRange := pendingRange s;
     pendingMinMag := pendingMinMag s; pendingQuery := pendingQuery s;
     data := v; loading := loading s; error := error s;
     selected := selected s; detailsOpen := detailsOpen s;
     autoFitEnabled := autoFitEnabled s; page := page s;
     eventsOpen := eventsOpen s |}.

Definition setLoading (v : bool) (s : AppState) : AppState :=
  {| sidebarOpen := sidebarOpen s; theme := theme s; range := range s;
     minMag := minMag s; query := query s; pendingRange := pendingRange s;
     pendingMinMag := pendingMinMag s; pendingQuery := pendingQuery s;
     data := data s; loading := v; error := error s; selected := selected s;
     detailsOpen := detailsOpen s; autoFitEnabled := autoFitEnabled s;
     page := page s; eventsOpen := eventsOpen s |}.

Definition setError (v : option string) (s : AppState) : AppState :=
  {| sidebarOpen := sidebarOpen s; theme := theme s; range := range s;
     minMag := minMag s; query := query s; pendingRange := pendingRange s;
     pendingMinMag := pendingMinMag s; pendingQuery := pendingQuery s;
     data := data s; loading := loading s; error := v;
     selected := selected s; detailsOpen := detailsOpen s;
     autoFitEnabled := autoFitEnabled s; page := page s;
     eventsOpen := eventsOpen s |}.

Definition setSelected (v : option EarthquakeFeature) (s : AppState) : AppState :=
  {| sidebarOpen := sidebarOpen s; theme := theme s; range := range s;
     minMag := minMag s; query := query s; pendingRange := pendingRange s;
     pendingMinMag := pendingMinMag s; pendingQuery := pendingQuery s;
     data := data s; loading := loading s; error := error s; selected := v;
     detailsOpen := detailsOpen s; autoFitEnabled := autoFitEnabled s;
     page := page s; eventsOpen := eventsOpen s |}.

Definition setDetailsOpen (v : bool) (s : AppState) : AppState :=
  {| sidebarOpen := sidebarOpen s; theme := theme s; range := range s;
     minMag := minMag s; query := query s; pendingRange := pendingRange s;
     pendingMinMag := pendingMinMag s; pendingQuery := pendingQuery s;
     data := data s; loading := loading s; error := error s;
     selected := selected s; detailsOpen := v;
     autoFitEnabled := autoFitEnabled s; page := page s;
     eventsOpen := eventsOpen s |}.

Definition setAutoFitEnabled (v : bool) (s : AppState) : AppState :=
  {| sidebarOpen := sidebarOpen s; theme := theme s; range := range s;
     minMag := minMag s; query := query s; pendingRange := pendingRange s;
     pendingMinMag := pendingMinMag s; pendingQuery := pendingQuery s;
     data := data s; loading := loading s; error := error s;
     selected := selected s; detailsOpen := detailsOpen s;
     autoFitEnabled := v; page := page s; eventsOpen := eventsOpen s |}.

Definition setPage (v : Z) (s : AppState) : AppState :=
  {| sidebarOpen := sidebarOpen s; theme := theme s; range := range s;
     minMag := minMag s; query := query s; pendingRange := pendingRange s;
     pendingMinMag := pendingMinMag s; pendingQuery := pendingQuery s;
     data := data s; loading := loading s; error := error s;
     selected := selected s; detailsOpen := detailsOpen s;
     autoFitEnabled := autoFitEnabled s; page := v;
     eventsOpen := eventsOpen s |}.

Definition setEventsOpen (v : bool) (s : AppState) : AppState :=
  {| sidebarOpen := sidebarOpen s; theme := theme s; range := range s;
     minMag := minMag s; query := query s; pendingRange := pendingRange s;
     pendingMinMag := pendingMinMag s; pendingQuery := pendingQuery s;
     data := data s; loading := loading s; error := error s;
     selected := selected s; detailsOpen := detailsOpen s;
     autoFitEnabled := autoFitEnabled s; page := page s; eventsOpen := v |}.

Definition initialState : AppState :=
  {| sidebarOpen := false; theme := dark; range := day; minMag := 2.5%float;
     query := EmptyString; pendingRange := day; pendingMinMag := 2.5%float;
     pendingQuery := EmptyString; data := []; loading := true; error := None;
     selected := None; detailsOpen := false; autoFitEnabled := true;
     page := 1; eventsOpen := false |}.

(** What a render of [App] derives from the state. *)
Definition filteredOf (s : AppState) : list EarthquakeFeature :=
  filtered (minMag s) (query s) (data s).

Definition sortedOf (s : AppState) : list EarthquakeFeature :=
  sortedByTimeDesc (filteredOf s).

Definition pointsOf (s : AppState) : list (float * float) :=
  pointsMemo (filteredOf s).

Definition totalPagesOf (s : AppState) : Z := totalPages (sortedOf s).

(** The entries of the list panels: [pageItems.map(...)]. *)
Definition listEntries (s : AppState) : list EarthquakeFeature :=
  pageItems (sortedOf s) (page s).

(** [!error] on [string | null]: [null] and the empty string are falsy. *)
Definition noError (e : option string) : bool :=
  match e with
  | None => true
  | Some m => negb (JsString.truthy m)
  end.

(** The markers, [FitBounds] and [MapSelectionSync] are inside
    [{!loading && !error && (...)}]. *)
Definition mapLayerShown (s : AppState) : bool :=
  negb (loading s) && noError (error s).

(** The markers drawn on the map: [filtered.map(...)] inside that guard. *)
Definition markers (s : AppState) : list EarthquakeFeature :=
  if mapLayerShown s then filteredOf s else [].

(** ** The world around the state

    Besides the state cells: the [useRef] cell [suppressFitRef]; the fetches
    that have not settled yet, each with the [isActive] variable of the effect
    run that issued it; the number of fetches issued and of renders done; the
    point sets passed to [map.fitBounds]; the descriptions of the toasts. *)

Record Request := {
  rid : nat;
  requested : TimeRange;
  isActive : bool
}.

Record World := {
  st : AppState;
  suppressFitRef : bool;
  inFlight : list Request;
  issued : nat;
  renders : nat;
  fits : list (list (float * float));
  toasts : list string
}.

Definition withState (f : AppState -> AppState) (w : World) : World :=
  {| st := f (st w); suppressFitRef := suppressFitRef w; inFlight := inFlight w;
     issued := issued w; renders := renders w; fits := fits w;
     toasts := toasts w |}.

Definition withSuppressFit (b : bool) (w : World) : World :=
  {| st := st w; suppressFitRef := b; inFlight := inFlight w;
     issued := issued w; renders := renders w; fits := fits w;
     toasts := toasts w |}.

Definition withInFlight (rs : list Request) (w : World) : World :=
  {| st := st w; suppressFitRef := suppressFitRef w; inFlight := rs;
     issued := issued w; renders := renders w; fits := fits w;
     toasts := toasts w |}.

Definition fitBounds (points : list (float * float)) (w : World) : World :=
  {| st := st w; suppressFitRef := suppressFitRef w; inFlight := inFlight w;
     issued := issued w; renders := renders w; fits := fits w ++ [points];
     toasts := toasts w |}.

Definition toast (description : string) (w : World) : World :=
  {| st := st w; suppressFitRef := suppressFitRef w; inFlight := inFlight w;
     issued := issued w; renders := renders w; fits := fits w;
     toasts := toasts w ++ [description] |}.

Definition rendered (w : World) : World :=
  {| st := st w; suppressFitRef := suppressFitRef w; inFlight := inFlight w;
     issued := issued w; renders := S (renders w); fits := fits w;
     toasts := toasts w |}.

(** ** Effects *)

(** The effect of [FitBounds], with its props. *)
Definition FitBounds_effect (points : list (float * float)) (disabled : bool)
  (w : World) : World :=
  if disabled then w
  else if suppressFitRef w then withSuppressFit false w
  else if (List.length points =? 0)%nat then w
  else fitBounds points w.

(** The cleanup of the fetch effect: [isActive = false] in the closure of the
    run it belongs to. *)
Definition deactivate (r : Request) : Request :=
  {| rid := rid r; requested := requested r; isActive := false |}.

(** The fetch effect (dependency [range]): cleanup of the previous run, then
    [setLoading(true)], [setError(null)] and a new fetch for [range]. *)
Definition fetch_effect (w : World) : World :=
  {| st := setError None (setLoading true (st w));
     suppressFitRef := suppressFitRef w;
     inFlight := map deactivate (inFlight w)
                 ++ [{| rid := issued w; requested := range (st w);
                        isActive := true |}];
     issued := S (issued w); renders := renders w; fits := fits w;
     toasts := toasts w |}.

(** The effect on [sortedByTimeDesc.length]: [setPage(1)],
    [setAutoFitEnabled(true)]. *)
Definition page_effect (w : World) : World :=
  withState (fun s => setAutoFitEnabled true (setPage 1 s)) w.

(** [e instanceof Error ? e.message : 'Unknown error'] *)
Definition messageOf (e : JsError) : string :=
  match e with
  | ErrorObj m => m
  | NonError => "Unknown error"
  end.

(** The callbacks on the promise of [fetchEarthquakes(range)], run with the
    [isActive] of their closure: [then], [catch], [finally]. *)
Definition settle (active : bool) (outcome : Promise EarthquakeGeoJSON)
  (w : World) : World :=
  let w1 :=
    match outcome with
    | Resolved geo =>
        if negb active then w else withState (setData (features geo)) w
    | Rejected e =>
        if negb active then w
        else
          let message := messageOf e in
          toast message (withState (setError (Some message)) w)
    end in
  if active then withState (setLoading false) w1 else w1.

(** ** Events and their handlers *)

Inductive Event :=
| PickEvent (f : EarthquakeFeature)   (* click on a marker or on a list entry *)
| ApplyFilters (fromSheet : bool)     (* either of the two apply buttons *)
| EditPendingRange (r : TimeRange)
| EditPendingMinMag (m : float)
| EditPendingQuery (s : string)
| GoToPage (p : Z)                    (* a page-number button *)
| PrevPage
| NextPage
| DialogOpenChange (open : bool)
| SidebarOpenChange (open : bool)
| EventsOpenChange (open : bool)
| ToggleTheme
| TransportSettled (r : nat) (p : Promise Response).

Definition find_request (r : nat) (rs : list Request) : option Request :=
  find (fun x => Nat.eqb (rid x) r) rs.

Definition remove_request (r : nat) (rs : list Request) : list Request :=
  filter (fun x => negb (Nat.eqb (rid x) r)) rs.

Definition handle (ev : Event) (w : World) : World :=
  let s := st w in
  match ev with
  | PickEvent f =>
      withState (fun s => setDetailsOpen false
                            (setSelected (Some f) (setAutoFitEnabled false s)))
                (withSuppressFit true w)
  | ApplyFilters fromSheet =>
      withState (fun s0 =>
        let s1 := setQuery (pendingQuery s)
                    (setMinMag (pendingMinMag s) (setRange (pendingRange s) s0)) in
        let s2 := if fromSheet then setSidebarOpen false s1 else s1 in
        setAutoFitEnabled true (setSelected None s2)) w
  | EditPendingRange r => withState (setPendingRange r) w
  | EditPendingMinMag m => withState (setPendingMinMag m) w
  | EditPendingQuery x => withState (setPendingQuery x) w
  | GoToPage p =>
      if existsb (Z.eqb p) (getPageNumbers (page s) (totalPagesOf s) defaultMax)
      then withState (setPage p) w else w
  | PrevPage =>
      if page s >? 1 then withState (setPage (page s - 1)) w else w
  | NextPage =>
      if page s <? totalPagesOf s then withState (setPage (page s + 1)) w else w
  | DialogOpenChange open =>
      withState (fun s0 =>
        setDetailsOpen open (if negb open then setSelected None s0 else s0)) w
  | SidebarOpenChange open => withState (setSidebarOpen open) w
  | EventsOpenChange open => withState (setEventsOpen open) w
  | ToggleTheme =>
      withState (setTheme (match theme s with dark => light | light => dark end)) w
  | TransportSettled r p =>
      match find_request r (inFlight w) with
      | None => w
      | Some req =>
          settle (isActive req)
                 (fetchEarthquakes (fun _ => p) (requested req))
                 (withInFlight (remove_request r (inFlight w)) w)
      end
  end.

(** ** Renders and commits

    After an event React renders [App] and then runs the effects: first those
    of the children ([FitBounds]), then those of [App] whose dependency differs
    from the previous render.  When these effects change the state there is one
    more render, in which no dependency of [App] has changed.

    Whether the effect of [FitBounds] runs after a given render is React's
    decision (the component is declared in the body of [App], and its
    dependencies are [points], [disabled] and [map]); it is left open here:
    [fitDue n] says whether it runs after render number [n], provided the
    component is mounted at all.  A render is counted after every event, also
    after one that leaves the state as it is; [fitDue] can say no there. *)

Section Machine.

Variable fitDue : nat -> bool.

Definition render (w : World) : World :=
  let s := st w in
  let w' := rendered w in
  if mapLayerShown s && fitDue (renders w)
  then FitBounds_effect (pointsOf s) (negb (autoFitEnabled s)) w'
  else w'.

Definition optionString_eqb (a b : option string) : bool :=
  match a, b with
  | None, None => true
  | Some x, Some y => String.eqb x y
  | _, _ => false
  end.

(** The cells that the effects of [App] write, compared. *)
Definition effectsChanged (s s' : AppState) : bool :=
  negb (Bool.eqb (loading s) (loading s')
        && optionString_eqb (error s) (error s')
        && (page s =? page s')
        && Bool.eqb (autoFitEnabled s) (autoFitEnabled s')).

Definition commit (prev : AppState) (w : World) : World :=
  let w1 := render w in
  let w2 :=
    if TimeRange_eqb (range prev) (range (st w1)) then w1 else fetch_effect w1 in
  let w3 :=
    if (List.length (sortedOf prev) =? List.length (sortedOf (st w2)))%nat
    then w2 else page_effect w2 in
  if effectsChanged (st w1) (st w3) then render w3 else w3.

Definition step (ev : Event) (w : World) : World :=
  commit (st w) (handle ev w).

Definition run (evs : list Event) (w : World) : World :=
  fold_left (fun w ev => step ev w) evs w.

End Machine.

(** The world after the first render: every effect of [App] has run once. *)
Definition mount : World :=
  page_effect
    (fetch_effect
       {| st := initialState; suppressFitRef := false; inFlight := [];
          issued := 0; renders := 1; fits := []; toasts := [] |}).

(** ** Derived statistics ([stats]) *)

(** [Math.max] on numbers: [NaN] as soon as one argument is; [+0] is above
    [-0]; without arguments, negative infinity. *)
Definition Math_max (values : list float) : float :=
  fold_left
    (fun highest number =>
       if PrimFloat.is_nan highest || PrimFloat.is_nan number then nan
       else if PrimFloat.is_zero number && negb (PrimFloat.get_sign number)
               && PrimFloat.is_zero highest && PrimFloat.get_sign highest
            then number
       else if (highest <? number)%float then number
       else highest)
    values neg_infinity.





(** ** Magnitude colours ([getMagnitudeColor], [getMagnitudeColorClass]) *)

Definition getMagnitudeColor (m : float) : string :=
  if (6 <? m)%float then "red"
  else if (4 <? m)%float then "orange"
  else "green".

Definition getMagnitudeColorClass (m : float) : string :=
  if (6 <? m)%float then "bg-red-500 text-white"
  else if (4 <? m)%float then "bg-yellow-500 text-black"
  else "bg-green-500 text-white".

(** [String.prototype.split] with a separator of one code unit: the pieces
    between the separators, empty ones included. *)
Fixpoint split (sep : ascii) (s : string) : list string :=
  match s with
  | EmptyString => [EmptyString]
  | String c s' =>
      if Ascii.eqb c sep then EmptyString :: split sep s'
      else match split sep s' with
           | [] => [String c EmptyString]
           | piece :: pieces => String c piece :: pieces
           end
  end.

(** The marker of an event: [mag ?? 0], [Math.max(3, mag * 1.5)],
    [getMagnitudeColor(mag)]. *)
Definition markerRadius (f : EarthquakeFeature) : float :=
  let m := or_else (mag (properties f)) 0%float in
  Math_max [3%float; (m * 1.5)%float].

Definition markerColor (f : EarthquakeFeature) : string :=
  getMagnitudeColor (or_else (mag (properties f)) 0%float).

(** The dot of the popup: [getMagnitudeColorClass(mag).split(' ')[0]];
    [None] is [undefined]. *)
Definition popupDotClass (f : EarthquakeFeature) : option string :=
  hd_error (split " " (getMagnitudeColorClass (or_else (mag (properties f)) 0%float))).

(** * The vocabulary of the properties *)

(** The pass condition in the words of the specification: the magnitude test,
    and the place text empty or contained, after case folding, in the place of
    the event. *)
Definition spec_passes (minMag : float) (placeText : string)
  (f : EarthquakeFeature) : Prop :=
  (minMag <=? or_else (mag (properties f)) neg_infinity)%float = true /\
  (placeText = EmptyString \/
   JsString.Substring
     (JsString.toLowerCase placeText)
     (JsString.toLowerCase (or_else (place (properties f)) EmptyString))).

(** Descending order of the timestamps, null as 0. *)
Definition timeDesc (a b : EarthquakeFeature) : Prop := timeOf b <= timeOf a.

(** The page numbers [1 .. totalPages]. *)
Definition allPages (sorted : list EarthquakeFeature) : list Z :=
  arrayFrom (totalPages sorted) (fun i => i + 1).

(** The window as a start and a length: [getPageNumbers c t w] is the run of
    [min t w] integers from [windowStart c t w], for a window of at least 0. *)
Definition windowStart (c t w : Z) : Z :=
  if t <=? w then 1
  else let start := Z.max 1 (c - w / 2) in
       if start + w - 1 >? t then t - w + 1 else start.

(** Every fetch in flight has been issued; the only one that can still be
    active is the last one issued, and it asks for the range of the state. *)
Definition fetch_inv (w : World) : Prop :=
  Forall (fun q => (rid q < issued w)%nat /\
                   (isActive q = true ->
                    S (rid q) = issued w /\ requested q = range (st w)))
         (inFlight w).

(** The event is a click on an apply button. *)
Definition isApply (ev : Event) : bool :=
  match ev with
  | ApplyFilters _ => true
  | _ => false
  end.

(** The filtered set has as many events in [s'] as in [s]. *)
Definition sameCount (s s' : AppState) : bool :=
  (List.length (filteredOf s) =? List.length (filteredOf s'))%nat.

Section Quiet.

Variable fitDue : nat -> bool.

(** The events in [evs], handled one after the other from [w], include no
    application of the filters and none changes the count of the filtered
    set. *)
Fixpoint quiet (evs : list Event) (w : World) : bool :=
  match evs with
  | [] => true
  | ev :: rest =>
      negb (isApply ev)
      && sameCount (st w) (st (handle ev w))
      && quiet rest (step fitDue ev w)
  end.

End Quiet.

(** No white space at the start: empty, or a first code unit that is none. *)
Definition startsClean (s : string) : Prop :=
  match s with
  | EmptyString => True
  | String c _ => JsString.isWhiteSpace c = false
  end.

(** The state after the effects of [App] that follow a render with state [s]
    when the previous render had state [prev]: the fetch effect when the range
    differs, then the page effect when the count of the sorted events
    differs. *)
Definition afterEffects (prev s : AppState) : AppState :=
  let s1 := if TimeRange_eqb (range prev) (range s) then s
            else setError None (setLoading true s) in
  if (List.length (sortedOf prev) =? List.length (sortedOf s1))%nat then s1
  else setAutoFitEnabled true (setPage 1 s1).


(** The fetches in flight have distinct numbers; the loading flag is set
    exactly when one of them is active; while it is set there is no error. *)
Definition loading_inv (w : World) : Prop :=
  NoDup (map rid (inFlight w)) /\
  loading (st w) = existsb isActive (inFlight w) /\
  (loading (st w) = true -> error (st w) = None).

(** The error message of the state is the description of the last toast. *)
Definition toast_inv (w : World) : Prop :=
  forall m, error (st w) = Some m -> exists earlier, toasts w = earlier ++ [m].

(** No fit was requested for an empty set of points. *)
Definition fits_inv (w : World) : Prop :=
  Forall (fun points => points <> []) (fits w).


(** The events whose handler calls [setSelected]. *)
Definition setsSelection (ev : Event) : bool :=
  match ev with
  | PickEvent _ | ApplyFilters _ | DialogOpenChange false => true
  | _ => false
  end.

(** ** Scenario data *)

(** The events of the scenarios of the specification. *)
Definition quake (name : string) (m : option float) (where_ : option string)
  (t : option Z) : EarthquakeFeature :=
  {| id := name;
     properties := {| mag := m; place := where_; time := t; url := None;
                      tsunami := None; sig := None |};
     coordinates := (0%float, 0%float, 10%float) |}.

(** The event [f] moved to the given longitude and latitude. *)
Definition located (lon lat : float) (f : EarthquakeFeature) : EarthquakeFeature :=
  {| id := id f; properties := properties f; coordinates := (lon, lat, 10%float) |}.

Definition anchorage : EarthquakeFeature :=
  quake "ak1" (Some 5.5%float) (Some "12km NE of Anchorage, Alaska"%string)
        (Some 1700000000000).

Definition tokyo : EarthquakeFeature :=
  quake "jp1" (Some 6%float) (Some "Near Tokyo, Japan"%string)
        (Some 1700000360000).

(** Twelve events with the timestamps 0 to 11. *)
Definition twelve : list EarthquakeFeature :=
  map (fun i => quake "q" (Some 3%float) None (Some (Z.of_nat i))) (seq 0 12).

(** A response with status 503 and a body that is not JSON. *)
Definition unavailable : Response :=
  {| status := 503; json := Rejected (ErrorObj "Unexpected token <") |}.

(** A day feed with the two events above. *)
Definition dayFeed : Promise Response :=
  Resolved {| status := 200;
              json := Resolved {| features := [anchorage; tokyo] |} |}.

(** An hour feed of which two events pass the initial filter, one of them
    at another place than the events of the day feed. *)
Definition hourFeed : Promise Response :=
  Resolved {| status := 200;
              json := Resolved
                {| features :=
                     [located (-155.5)%float 19.5%float
                        (quake "h1" (Some 3%float) (Some "Hawaii"%string) (Some 5));
                      quake "h2" (Some 4%float) None None;
                      quake "h3" (Some 1%float) None (Some 7)] |} |}.

(** An hour feed with one event. *)
Definition smallFeed : Promise Response :=
  Resolved {| status := 200; json := Resolved {| features := [tokyo] |} |}.

(** The remount policy: the effect of [FitBounds] runs after every render. *)
Definition everyRender (n : nat) : bool := true.

(** The day feed has arrived and is on the map. *)
Definition loadedDay : World := run everyRender [TransportSettled 0 dayFeed] mount.

(** The hour feed has been requested after the day feed arrived. *)
Definition awaitingHour : World :=
  run everyRender [EditPendingRange hour; ApplyFilters false] loadedDay.

(** * Properties *)

(** ** Strings *)

Module JsStringFacts.

Import JsString.
Local Open Scope string_scope.

Lemma prefix_app (q s : string) :
  prefix q s = true <-> exists post, s = q ++ post.
Proof.
  revert s; induction q as [|c q IH]; intros s.
  - split; [intros _; now exists s | intros _; now destruct s].
  - destruct s as [|d s]; simpl.
    + split; [discriminate | intros [post H]; discriminate].
    + destruct (ascii_dec c d) as [->|Hne].
      * rewrite IH. split; intros [post H]; exists post.
        -- now rewrite H.
        -- now injection H.
      * split; [discriminate|].
        intros [post H]. injection H as H1 H2. now elim Hne.
Qed.

Lemma includes_spec (s q : string) :
  includes s q = true <-> Substring q s.
Proof.
  unfold Substring. induction s as [|d s IH].
  - change (includes EmptyString q) with (prefix q EmptyString || false).
    rewrite orb_false_r, prefix_app. split.
    + intros [post H]. now exists EmptyString, post.
    + intros [pre [post H]]. destruct pre; [now exists post | discriminate].
  - change (includes (String d s) q)
      with (prefix q (String d s) || includes s q).
    rewrite orb_true_iff, prefix_app, IH. split.
    + intros [[post H] | [pre [post H]]].
      * now exists EmptyString, post.
      * exists (String d pre), post. simpl. now rewrite H.
    + intros [pre [post H]]. destruct pre as [|e pre]; simpl in H.
      * left. now exists post.
      * right. injection H as _ H. now exists pre, post.
Qed.

Lemma truthy_false (s : string) : truthy s = false <-> s = EmptyString.
Proof. destruct s; simpl; split; congruence. Qed.

Lemma toLowerCase_empty (s : string) :
  toLowerCase s = EmptyString <-> s = EmptyString.
Proof. destruct s; simpl; split; congruence. Qed.

End JsStringFacts.

Lemma TimeRange_eqb_eq (a b : TimeRange) : TimeRange_eqb a b = true <-> a = b.
Proof. destruct a, b; simpl; split; congruence. Qed.

(** ** The filter *)

Lemma passes_iff (minMag : float) (query : string) (f : EarthquakeFeature) :
  passes minMag query f = true <->
  (minMag <=? or_else (mag (properties f)) neg_infinity)%float = true /\
  (JsString.trim query = EmptyString \/
   JsString.Substring
     (JsString.toLowerCase (JsString.trim query))
     (JsString.toLowerCase (or_else (place (properties f)) EmptyString))).
Proof.
  unfold passes. rewrite andb_true_iff.
  apply and_iff_compat_l.
  destruct (JsString.truthy (JsString.toLowerCase (JsString.trim query))) eqn:Hq.
  - rewrite JsStringFacts.includes_spec. split; [now right|].
    intros [He | Hs]; [|exact Hs].
    rewrite He in Hq. discriminate.
  - apply (proj1 (JsStringFacts.truthy_false _)) in Hq.
    apply (proj1 (JsStringFacts.toLowerCase_empty _)) in Hq.
    split; [intros _; left; exact Hq | reflexivity].
Qed.

(** C1, as stated: membership in the output of the filter is not the
    membership test of the specification.  With the place text ["alaska "]
    (a trailing blank) the Anchorage event is returned, although its place
    does not contain that text. *)
Lemma filtered_iff_as_stated_fails :
  ~ (forall (minMag : float) (placeText : string)
            (events : list EarthquakeFeature) (e : EarthquakeFeature),
        In e (filtered minMag placeText events) <->
        In e events /\ spec_passes minMag placeText e).
Proof.
  intros H.
  destruct (H 0%float "alaska "%string [anchorage] anchorage) as [H1 _].
  assert (Hin : In anchorage (filtered 0%float "alaska "%string [anchorage]))
    by (vm_compute; now left).
  destruct (H1 Hin) as [_ [_ [Hempty | Hsub]]].
  - discriminate.
  - apply JsStringFacts.includes_spec in Hsub. vm_compute in Hsub. discriminate.
Qed.

(** C1, amended: an event is in the output of the filter iff it is in the
    input, its magnitude (null as negative infinity) is at least the minimum
    magnitude, and the place text, trimmed of surrounding white space, is
    empty or is contained, lower-cased, in the lower-cased place of the event
    (null as the empty string). *)
Theorem filtered_iff (minMag : float) (query : string)
  (events : list EarthquakeFeature) (e : EarthquakeFeature) :
  In e (filtered minMag query events) <->
  In e events /\
  (minMag <=? or_else (mag (properties e)) neg_infinity)%float = true /\
  (JsString.trim query = EmptyString \/
   JsString.Substring
     (JsString.toLowerCase (JsString.trim query))
     (JsString.toLowerCase (or_else (place (properties e)) EmptyString))).
Proof.
  unfold filtered. rewrite filter_In, passes_iff. reflexivity.
Qed.

Lemma filter_idempotent {A : Type} (p : A -> bool) (l : list A) :
  filter p (filter p l) = filter p l.
Proof.
  induction l as [|x l IH]; simpl; [reflexivity|].
  destruct (p x) eqn:Hx; simpl; [rewrite Hx, IH|]; auto.
Qed.

(** C8: the filter is idempotent. *)
Theorem filtered_idempotent (minMag : float) (query : string)
  (events : list EarthquakeFeature) :
  filtered minMag query (filtered minMag query events)
  = filtered minMag query events.
Proof. apply filter_idempotent. Qed.

(** Scenarios of the specification. *)
Example scenario_min_magnitude :
  let events := [quake "a" (Some 0x1.0cccccccccccdp+1%float) None None;  (* 2.1 *)
                 quake "b" (Some 5.5%float) None None;
                 quake "c" (Some 6%float) None None;
                 quake "d" None None None] in
  map id (filtered 5%float EmptyString events) = ["b"; "c"]%string.
Proof. vm_compute. reflexivity. Qed.

Example scenario_place :
  map id (filtered 0%float "alaska" [anchorage; tokyo]) = ["ak1"]%string.
Proof. vm_compute. reflexivity. Qed.

Example scenario_nan_threshold :
  filtered nan EmptyString [anchorage; tokyo] = [].
Proof. vm_compute. reflexivity. Qed.

(** ** The sort *)

Section SortFacts.

Context {A : Type} (cmp : A -> A -> Z).

Lemma insert_perm (x : A) (l : list A) : Permutation (insert cmp x l) (x :: l).
Proof.
  induction l as [|y l IH]; simpl; [reflexivity|].
  destruct (cmp x y <=? 0); [reflexivity|].
  rewrite IH. apply perm_swap.
Qed.

Lemma sort_perm (l : list A) : Permutation (sort cmp l) l.
Proof.
  induction l as [|x l IH]; simpl; [reflexivity|].
  rewrite insert_perm. now constructor.
Qed.

Lemma sort_length (l : list A) : List.length (sort cmp l) = List.length l.
Proof. apply Permutation_length, sort_perm. Qed.

End SortFacts.

Lemma insert_byTimeDesc_sorted (x : EarthquakeFeature) (l : list EarthquakeFeature) :
  StronglySorted timeDesc l -> StronglySorted timeDesc (insert byTimeDesc x l).
Proof.
  induction 1 as [|y l Hl IH Hy]; simpl.
  - repeat constructor.
  - unfold byTimeDesc at 1. destruct (Z.leb_spec (timeOf y - timeOf x) 0) as [Hle|Hgt].
    + constructor; [now constructor|].
      constructor; [unfold timeDesc; lia|].
      eapply Forall_impl; [|exact Hy]. unfold timeDesc. intros; lia.
    + constructor; [exact IH|].
      eapply Permutation_Forall; [symmetry; apply insert_perm|].
      constructor; [unfold timeDesc; lia | exact Hy].
Qed.

Lemma sortedByTimeDesc_sorted (fs : list EarthquakeFeature) :
  StronglySorted timeDesc (sortedByTimeDesc fs).
Proof.
  induction fs as [|x fs IH]; simpl; [constructor|].
  now apply insert_byTimeDesc_sorted.
Qed.

(** Stability: the events of one timestamp keep their order. *)
Lemma sortedByTimeDesc_stable (fs : list EarthquakeFeature) (t : Z) :
  filter (fun f => timeOf f =? t) (sortedByTimeDesc fs)
  = filter (fun f => timeOf f =? t) fs.
Proof.
  induction fs as [|x fs IH]; simpl; [reflexivity|].
  rewrite <- IH. unfold sortedByTimeDesc. generalize (sort byTimeDesc fs) as l.
  clear IH. induction l as [|y l IHl]; simpl; [reflexivity|].
  unfold byTimeDesc at 1. destruct (Z.leb_spec (timeOf y - timeOf x) 0) as [Hle|Hgt].
  - reflexivity.
  - simpl. rewrite IHl.
    destruct (Z.eqb_spec (timeOf y) t), (Z.eqb_spec (timeOf x) t);
      try reflexivity; lia.
Qed.

(** ** Pagination *)

Lemma ceil_div_spec (a b : Z) :
  0 < b -> b * (ceil_div a b - 1) < a <= b * ceil_div a b.
Proof.
  intros Hb. unfold ceil_div.
  pose proof (Z.mul_div_le (- a) b Hb).
  pose proof (Z.mul_succ_div_gt (- a) b Hb). nia.
Qed.

Lemma firstn_add {A : Type} (a b : nat) (l : list A) :
  firstn (a + b) l = firstn a l ++ firstn b (skipn a l).
Proof.
  revert l; induction a as [|a IH]; intros l; simpl; [reflexivity|].
  destruct l as [|x l]; simpl.
  - now rewrite firstn_nil.
  - now rewrite IH.
Qed.

Lemma slice_window {A : Type} (l : list A) (start n : nat) :
  slice l (Z.of_nat start) (Z.of_nat start + Z.of_nat n)
  = firstn n (skipn start l).
Proof.
  unfold slice.
  destruct (Z.ltb_spec (Z.of_nat start) 0) as [?|_]; [lia|].
  destruct (Z.ltb_spec (Z.of_nat start + Z.of_nat n) 0) as [?|_]; [lia|].
  set (L := List.length l).
  replace (Z.to_nat (Z.min (Z.of_nat start) (Z.of_nat L)))
    with (Nat.min start L) by lia.
  replace (Z.to_nat (Z.min (Z.of_nat start + Z.of_nat n) (Z.of_nat L)
                     - Z.min (Z.of_nat start) (Z.of_nat L)))
    with (Nat.min (start + n) L - Nat.min start L)%nat by lia.
  destruct (Nat.le_gt_cases start L) as [Hle|Hgt].
  - rewrite (Nat.min_l start L) by lia.
    destruct (Nat.le_gt_cases (start + n) L) as [Hle'|Hgt'].
    + rewrite Nat.min_l by lia. f_equal. lia.
    + rewrite Nat.min_r by lia.
      rewrite !firstn_all2; auto; rewrite length_skipn; fold L; lia.
  - rewrite !Nat.min_r by lia. rewrite Nat.sub_diag. simpl.
    rewrite (skipn_all2 l) by (fold L; lia). now rewrite firstn_nil.
Qed.

Lemma pageItems_nth (sorted : list EarthquakeFeature) (i : nat) :
  pageItems sorted (Z.of_nat i + 1)
  = firstn (Z.to_nat pageSize) (skipn (Z.to_nat pageSize * i) sorted).
Proof.
  rewrite <- slice_window. unfold pageItems.
  f_equal; unfold pageSize; lia.
Qed.

Lemma chunks_concat {A : Type} (n m : nat) (l : list A) :
  flat_map (fun i => firstn n (skipn (n * i) l)) (seq 0 m) = firstn (n * m) l.
Proof.
  induction m as [|m IH].
  - now rewrite Nat.mul_0_r.
  - rewrite seq_S, flat_map_app, IH. simpl. rewrite app_nil_r.
    rewrite Nat.mul_succ_r. symmetry. apply firstn_add.
Qed.

Lemma pages_cover (sorted : list EarthquakeFeature) :
  flat_map (pageItems sorted) (allPages sorted) = sorted.
Proof.
  unfold allPages, arrayFrom. rewrite flat_map_concat_map, map_map.
  rewrite <- flat_map_concat_map.
  rewrite (flat_map_ext _ _ (pageItems_nth sorted)).
  rewrite chunks_concat. apply firstn_all2.
  unfold totalPages.
  pose proof (ceil_div_spec (Z.of_nat (List.length sorted)) pageSize eq_refl).
  unfold pageSize in *. lia.
Qed.

(** C3: the pages [1 .. totalPages] of the list sorted by descending time,
    one after the other, are that list: no gap, no duplicate.  The sorted list
    is a rearrangement of the filtered list in descending order of the
    timestamps (null as 0).  This holds for every input, the empty one too. *)
Theorem pages_concat_sorted (fs : list EarthquakeFeature) :
  let sorted := sortedByTimeDesc fs in
  flat_map (pageItems sorted) (allPages sorted) = sorted /\
  allPages sorted = map Z.of_nat (seq 1 (Z.to_nat (totalPages sorted))) /\
  totalPages sorted = Z.max 1 (ceil_div (Z.of_nat (List.length fs)) 9) /\
  Permutation sorted fs /\
  StronglySorted timeDesc sorted.
Proof.
  intros sorted. repeat split.
  - apply pages_cover.
  - unfold allPages, arrayFrom. rewrite <- seq_shift, map_map.
    apply map_ext. intros; lia.
  - unfold totalPages, sorted, sortedByTimeDesc. now rewrite sort_length.
  - apply sort_perm.
  - apply sortedByTimeDesc_sorted.
Qed.

(** C10: a page number beyond [totalPages] gives the empty page. *)
Theorem pageItems_beyond_last (sorted : list EarthquakeFeature) (p : Z) :
  totalPages sorted < p -> pageItems sorted p = [].
Proof.
  intros Hp. unfold pageItems, slice, totalPages in *.
  pose proof (ceil_div_spec (Z.of_nat (List.length sorted)) pageSize eq_refl).
  unfold pageSize in *.
  destruct (Z.ltb_spec ((p - 1) * 9) 0) as [?|_]; [lia|].
  destruct (Z.ltb_spec ((p - 1) * 9 + 9) 0) as [?|_]; [lia|].
  rewrite !Z.min_r by lia. now rewrite Z.sub_diag.
Qed.

Lemma pageItems_beyond_last_witness :
  totalPages (sortedByTimeDesc twelve) < 3 /\
  pageItems (sortedByTimeDesc twelve) 3 = [].
Proof.
  split; [reflexivity|].
  apply (pageItems_beyond_last (sortedByTimeDesc twelve) 3). reflexivity.
Defined.

Example scenario_twelve_events :
  let sorted := sortedByTimeDesc (filtered 0%float EmptyString twelve) in
  totalPages sorted = 2 /\
  List.length (pageItems sorted 1) = 9%nat /\
  List.length (pageItems sorted 2) = 3%nat /\
  map timeOf (pageItems sorted 2) = [2; 1; 0].
Proof. vm_compute. repeat split. Qed.

(** ** The page-number window *)

Lemma arrayFrom_length {A : Type} (n : Z) (f : Z -> A) :
  List.length (arrayFrom n f) = Z.to_nat n.
Proof. unfold arrayFrom. now rewrite length_map, length_seq. Qed.

Lemma arrayFrom_In (n s x : Z) :
  In x (arrayFrom n (fun i => s + i)) <-> s <= x < s + n.
Proof.
  unfold arrayFrom. rewrite in_map_iff. split.
  - intros [i [<- Hi]]. apply in_seq in Hi. lia.
  - intros Hx. exists (Z.to_nat (x - s)). split; [lia|].
    apply in_seq. lia.
Qed.

Lemma arrayFrom_succ (n : Z) :
  arrayFrom n (fun i => i + 1) = arrayFrom n (fun i => 1 + i).
Proof. unfold arrayFrom. apply map_ext. intros; lia. Qed.

Lemma getPageNumbers_run (c t w : Z) :
  0 <= t -> 0 <= w ->
  getPageNumbers c t w = arrayFrom (Z.min t w) (fun i => windowStart c t w + i).
Proof.
  intros Ht Hw. unfold getPageNumbers, windowStart.
  destruct (Z.leb_spec t w) as [Hle|Hgt].
  - rewrite Z.min_l by lia. apply arrayFrom_succ.
  - rewrite Z.min_r by lia.
    destruct (Z.gtb_spec (Z.max 1 (c - w / 2) + w - 1) t); f_equal; lia.
Qed.

(** C2, as stated: for a current page outside [1, t] the window does not
    contain it (12 of 8 pages: the window is 2..8), and a window of 0 is
    empty, so it contains no page at all. *)
Lemma getPageNumbers_as_stated_fails :
  ~ (forall c t w : Z, 1 <= t -> w <= t -> In c (getPageNumbers c t w)) /\
  getPageNumbers 12 8 7 = [2; 3; 4; 5; 6; 7; 8] /\
  getPageNumbers 1 3 0 = [].
Proof.
  repeat split.
  intros H. specialize (H 12 8 7 ltac:(lia) ltac:(lia)).
  vm_compute in H. intuition discriminate.
Qed.

(** C2, amended: for a total of at least 1 and a window of at least 0,
    [getPageNumbers c t w] is [min t w] contiguous integers within [1, t],
    whatever [c] is; it contains [c] whenever [t >= w], the window is at
    least 1 and [c] is a page, that is [1 <= c <= t]. *)
Theorem getPageNumbers_window (c t w : Z) :
  1 <= t -> 0 <= w ->
  let pages := getPageNumbers c t w in
  Z.of_nat (List.length pages) = Z.min t w /\
  (exists first, pages = arrayFrom (Z.min t w) (fun i => first + i)) /\
  Forall (fun p => 1 <= p <= t) pages /\
  (w <= t -> 1 <= w -> 1 <= c <= t -> In c pages).
Proof.
  intros Ht Hw pages. subst pages.
  rewrite getPageNumbers_run by lia.
  assert (Hs : 1 <= windowStart c t w /\ windowStart c t w + Z.min t w - 1 <= t).
  { unfold windowStart. destruct (Z.leb_spec t w); [lia|].
    destruct (Z.gtb_spec (Z.max 1 (c - w / 2) + w - 1) t); lia. }
  repeat split.
  - rewrite arrayFrom_length. lia.
  - now exists (windowStart c t w).
  - apply Forall_forall. intros p Hp. apply arrayFrom_In in Hp. lia.
  - intros Hwt Hw1 Hc. apply arrayFrom_In.
    unfold windowStart. destruct (Z.leb_spec t w) as [Hle|Hgt]; [lia|].
    assert (Hhalf : 0 <= w / 2 < w) by (split; [apply Z.div_pos|apply Z.div_lt]; lia).
    destruct (Z.gtb_spec (Z.max 1 (c - w / 2) + w - 1) t); lia.
Qed.

Lemma getPageNumbers_window_witness :
  let pages := getPageNumbers 5 20 defaultMax in
  Z.of_nat (List.length pages) = Z.min 20 defaultMax /\
  (exists first, pages = arrayFrom (Z.min 20 defaultMax) (fun i => first + i)) /\
  Forall (fun p => 1 <= p <= 20) pages /\
  In 5 pages.
Proof.
  destruct (getPageNumbers_window 5 20 defaultMax) as (H1 & H2 & H3 & H4);
    [unfold defaultMax; lia | unfold defaultMax; lia |].
  split; [exact H1 | split; [exact H2 | split; [exact H3 |]]].
  apply H4; unfold defaultMax; lia.
Defined.

Example getPageNumbers_centered : getPageNumbers 5 20 7 = [2; 3; 4; 5; 6; 7; 8].
Proof. reflexivity. Qed.

Example getPageNumbers_clamped : getPageNumbers 19 20 7 = [14; 15; 16; 17; 18; 19; 20].
Proof. reflexivity. Qed.

Example getPageNumbers_all : getPageNumbers 2 3 7 = [1; 2; 3].
Proof. reflexivity. Qed.

(** ** The feed client *)

Lemma ok_iff (response : Response) :
  ok response = true <-> 200 <= status response <= 299.
Proof. unfold ok. rewrite andb_true_iff, !Z.leb_le. reflexivity. Qed.

Lemma to_int_not_nil (n : Z) :
  Z.to_int n <> Decimal.Pos Decimal.Nil /\ Z.to_int n <> Decimal.Neg Decimal.Nil.
Proof.
  pose proof (DecimalZ.to_of (Z.to_int n)) as H.
  rewrite DecimalZ.of_to in H.
  split; intros E; rewrite E in H; discriminate.
Qed.

Lemma numberToString_inj (a b : Z) :
  numberToString a = numberToString b -> a = b.
Proof.
  unfold numberToString. intros H.
  apply (f_equal NilZero.int_of_string) in H.
  destruct (to_int_not_nil a), (to_int_not_nil b).
  rewrite !NilZero.isi in H by assumption.
  injection H as H. apply (f_equal Z.of_int) in H.
  now rewrite !DecimalZ.of_to in H.
Qed.

(** The message of the failure determines the status. *)
Lemma failureMessage_inj (a b : Z) :
  failureMessage a = failureMessage b -> a = b.
Proof.
  unfold failureMessage. simpl. intros H.
  injection H as H. now apply numberToString_inj.
Qed.

Lemma fetchEarthquakes_transport_error
  (fetch : string -> Promise Response) (range : TimeRange) (e : JsError) :
  fetch (FEED_BY_RANGE range) = Rejected e ->
  fetchEarthquakes fetch range = Rejected e.
Proof. unfold fetchEarthquakes. now intros ->. Qed.

(** C5: when the response of the feed of a range has a status outside
    200..299, [fetchEarthquakes] fails with the error whose message carries
    that status; it returns a feature collection only for a status within
    200..299, and then the one parsed from the body. *)
Theorem fetchEarthquakes_status
  (fetch : string -> Promise Response) (range : TimeRange) (response : Response) :
  fetch (FEED_BY_RANGE range) = Resolved response ->
  (~ 200 <= status response <= 299 ->
   fetchEarthquakes fetch range
   = Rejected (ErrorObj (failureMessage (status response)))) /\
  (forall geo, fetchEarthquakes fetch range = Resolved geo ->
               200 <= status response <= 299 /\ json response = Resolved geo) /\
  (forall code, failureMessage code = failureMessage (status response) ->
                code = status response).
Proof.
  intros Hf. unfold fetchEarthquakes. rewrite Hf. simpl.
  pose proof (ok_iff response) as Hok.
  split; [|split; [|intros code; apply failureMessage_inj]].
  - intros Hn. destruct (ok response); simpl; [|reflexivity].
    elim Hn. now apply Hok.
  - intros geo. destruct (ok response); simpl; [|discriminate].
    intros Hg. split; [now apply Hok|].
    destruct (json response); simpl in Hg; congruence.
Qed.

Lemma fetchEarthquakes_status_witness :
  fetchEarthquakes (fun _ => Resolved unavailable) hour
  = Rejected (ErrorObj "USGS request failed: 503").
Proof.
  apply (fetchEarthquakes_status (fun _ => Resolved unavailable) hour unavailable).
  - reflexivity.
  - simpl. lia.
Defined.

(** ** The effect of [FitBounds] *)

Lemma FitBounds_effect_frame (points : list (float * float)) (disabled : bool)
  (w : World) :
  let w' := FitBounds_effect points disabled w in
  st w' = st w /\ inFlight w' = inFlight w /\ issued w' = issued w /\
  renders w' = renders w /\ toasts w' = toasts w.
Proof.
  unfold FitBounds_effect.
  destruct disabled, (suppressFitRef w), (List.length points =? 0)%nat;
    simpl; auto.
Qed.

Lemma FitBounds_effect_disabled (points : list (float * float)) (w : World) :
  FitBounds_effect points true w = w.
Proof. reflexivity. Qed.

(** C4, as stated: in the render that follows the pick of an event
    [FitBounds] is mounted and its effect runs with the flag set, and the flag
    is still set afterwards: the props say [disabled], so the effect returns
    before it looks at the flag. *)
Lemma suppression_as_stated_fails :
  let w := handle (PickEvent anchorage) loadedDay in
  mapLayerShown (st w) = true /\
  suppressFitRef w = true /\
  suppressFitRef
    (FitBounds_effect (pointsOf (st w)) (negb (autoFitEnabled (st w))) w) = true /\
  suppressFitRef (step everyRender (PickEvent anchorage) loadedDay) = true.
Proof. vm_compute. repeat split. Qed.

(** C4, amended: when the effect of [FitBounds] runs with the flag set and
    automatic fit is enabled, the flag is reset to false in that evaluation
    and no fit is performed; when automatic fit is disabled, as it is after
    the pick of an event, the evaluation changes nothing and the flag stays
    set. *)
Theorem FitBounds_effect_suppression (points : list (float * float))
  (disabled : bool) (w : World) :
  suppressFitRef w = true ->
  let w' := FitBounds_effect points disabled w in
  (disabled = false -> w' = withSuppressFit false w) /\
  (disabled = true -> w' = w) /\
  suppressFitRef w' = disabled /\
  fits w' = fits w.
Proof.
  intros Hs. unfold FitBounds_effect. rewrite Hs.
  destruct disabled; simpl; (split; [|split; [|split]]);
    intros; try reflexivity; try discriminate; auto.
Qed.

(** An event is picked and then the filters are applied: in the render that
    follows, automatic fit is enabled again and the flag is still set. *)
Lemma FitBounds_effect_suppression_witness :
  let w := handle (ApplyFilters false)
             (step everyRender (PickEvent anchorage) loadedDay) in
  suppressFitRef w = true /\
  autoFitEnabled (st w) = true /\
  suppressFitRef (FitBounds_effect (pointsOf (st w)) false w) = false /\
  fits (FitBounds_effect (pointsOf (st w)) false w) = fits w.
Proof.
  intros w.
  destruct (FitBounds_effect_suppression (pointsOf (st w)) false w eq_refl)
    as (_ & _ & H3 & H4).
  split; [reflexivity | split; [reflexivity | split; [exact H3 | exact H4]]].
Defined.

(** ** Renders and commits *)

Section MachineFacts.

Variable fitDue : nat -> bool.

Lemma render_frame (w : World) :
  let w' := render fitDue w in
  st w' = st w /\ inFlight w' = inFlight w /\ issued w' = issued w /\
  toasts w' = toasts w.
Proof.
  unfold render.
  destruct (mapLayerShown (st w) && fitDue (renders w)).
  - destruct (FitBounds_effect_frame (pointsOf (st w))
                (negb (autoFitEnabled (st w))) (rendered w))
      as (H1 & H2 & H3 & _ & H5).
    simpl. rewrite H1, H2, H3, H5. auto.
  - simpl. auto.
Qed.

Lemma render_st (w : World) : st (render fitDue w) = st w.
Proof. apply render_frame. Qed.

(** While automatic fit is disabled a render requests no fit and leaves the
    flag as it is. *)
Lemma render_disabled (w : World) :
  autoFitEnabled (st w) = false ->
  fits (render fitDue w) = fits w /\
  suppressFitRef (render fitDue w) = suppressFitRef w.
Proof.
  intros Hd. unfold render. rewrite Hd. simpl.
  destruct (mapLayerShown (st w) && fitDue (renders w)); simpl; auto.
Qed.

Lemma effectsChanged_same (s : AppState) : effectsChanged s s = false.
Proof.
  unfold effectsChanged.
  rewrite !Bool.eqb_reflx, Z.eqb_refl.
  destruct (error s) as [m|]; simpl; [now rewrite String.eqb_refl | reflexivity].
Qed.

(** A commit in which no dependency of the effects of [App] has changed
    is renders only. *)
Lemma commit_same_deps (prev : AppState) (w : World) :
  range prev = range (st w) ->
  List.length (sortedOf prev) = List.length (sortedOf (st w)) ->
  commit fitDue prev w = render fitDue w.
Proof.
  intros Hr Hl. unfold commit. cbv zeta. rewrite render_st.
  rewrite (proj2 (TimeRange_eqb_eq _ _) Hr). cbv iota.
  rewrite render_st, Hl, Nat.eqb_refl. cbv iota.
  now rewrite render_st, effectsChanged_same.
Qed.

End MachineFacts.

(** ** Fetch failures *)

Lemma sortedOf_length (s : AppState) :
  List.length (sortedOf s) = List.length (filteredOf s).
Proof. apply sort_length. Qed.

Lemma markers_hidden_on_error (s : AppState) (m : string) :
  error s = Some m -> m <> EmptyString -> markers s = [].
Proof.
  intros He Hm. unfold markers, mapLayerShown. rewrite He. simpl.
  destruct m; [now elim Hm|]. simpl. now rewrite andb_false_r.
Qed.

(** C6, as stated: the day feed is on the map; the request for the hour feed
    fails with status 503; the collection and the filtered set are the same
    as before, and the list still shows them, but the map shows no marker:
    the marker layer is rendered only when there is neither loading nor
    error. *)
Lemma failed_fetch_as_stated_fails :
  let after := step everyRender (TransportSettled 1 (Resolved unavailable))
                    awaitingHour in
  map id (markers (st loadedDay)) = ["ak1"; "jp1"]%string /\
  filteredOf (st after) = filteredOf (st loadedDay) /\
  map id (listEntries (st after)) = ["jp1"; "ak1"]%string /\
  error (st after) = Some "USGS request failed: 503"%string /\
  markers (st after) = [].
Proof. vm_compute. repeat split. Qed.

(** C6, amended: when the fetch of the request that is still active fails,
    the state after the event is the state before with the error message set
    and the loading flag cleared: the collection, the active and the pending
    filters, the selection and the page are as before, and so are the
    filtered set and the entries of the list; the map shows no marker while
    the error message is set. *)
Theorem failed_fetch_frame (fitDue : nat -> bool) (w : World) (r : nat)
  (req : Request) (p : Promise Response) (e : JsError) :
  find_request r (inFlight w) = Some req ->
  isActive req = true ->
  fetchEarthquakes (fun _ => p) (requested req) = Rejected e ->
  let s := st w in
  let s' := st (step fitDue (TransportSettled r p) w) in
  s' = setLoading false (setError (Some (messageOf e)) s) /\
  (data s' = data s /\
   range s' = range s /\ minMag s' = minMag s /\ query s' = query s /\
   pendingRange s' = pendingRange s /\ pendingMinMag s' = pendingMinMag s /\
   pendingQuery s' = pendingQuery s /\
   selected s' = selected s /\ page s' = page s) /\
  (error s' = Some (messageOf e) /\ loading s' = false) /\
  (filteredOf s' = filteredOf s /\ listEntries s' = listEntries s) /\
  (messageOf e <> EmptyString -> markers s' = []).
Proof.
  intros Hfind Hact Hrej s s'.
  assert (Hs : s' = setLoading false (setError (Some (messageOf e)) s)).
  { subst s'. unfold step, handle. rewrite Hfind, Hact, Hrej.
    rewrite commit_same_deps by reflexivity. rewrite render_st. reflexivity. }
  rewrite Hs. repeat split.
  intros Hm. now apply (markers_hidden_on_error _ (messageOf e)).
Qed.

Lemma failed_fetch_frame_witness :
  let s := st awaitingHour in
  let s' := st (step everyRender (TransportSettled 1 (Resolved unavailable))
                     awaitingHour) in
  data s' = data s /\ selected s' = selected s /\ page s' = page s /\
  listEntries s' = listEntries s /\ markers s' = [].
Proof.
  destruct (failed_fetch_frame everyRender awaitingHour 1
              {| rid := 1; requested := hour; isActive := true |}
              (Resolved unavailable)
              (ErrorObj "USGS request failed: 503")
              eq_refl eq_refl eq_refl)
    as (_ & (Hd & _ & _ & _ & _ & _ & _ & Hsel & Hp) & _ & (_ & Hl) & Hm).
  split; [exact Hd | split; [exact Hsel | split; [exact Hp | split; [exact Hl|]]]].
  apply Hm. discriminate.
Defined.

(** ** Superseded fetches *)

Lemma settle_frame (active : bool) (outcome : Promise EarthquakeGeoJSON)
  (w : World) :
  let w' := settle active outcome w in
  inFlight w' = inFlight w /\ issued w' = issued w /\ fits w' = fits w /\
  suppressFitRef w' = suppressFitRef w /\
  range (st w') = range (st w) /\
  autoFitEnabled (st w') = autoFitEnabled (st w).
Proof. destruct active, outcome; simpl; auto 10. Qed.

Lemma settle_inactive (outcome : Promise EarthquakeGeoJSON) (w : World) :
  settle false outcome w = w.
Proof. now destruct outcome. Qed.

Lemma handle_fetch_frame (ev : Event) (w : World) :
  issued (handle ev w) = issued w /\
  incl (inFlight (handle ev w)) (inFlight w).
Proof.
  destruct ev; simpl; try (split; [reflexivity | apply incl_refl]).
  - destruct (existsb _ _); split; try reflexivity; apply incl_refl.
  - destruct (_ >? _); split; try reflexivity; apply incl_refl.
  - destruct (_ <? _); split; try reflexivity; apply incl_refl.
  - destruct (find_request r (inFlight w)) as [req|];
      [|split; [reflexivity | apply incl_refl]].
    destruct (settle_frame (isActive req)
                (fetchEarthquakes (fun _ => p) (requested req))
                (withInFlight (remove_request r (inFlight w)) w))
      as (H1 & H2 & _).
    rewrite H1, H2. split; [reflexivity|].
    intros x Hx. simpl in Hx. unfold remove_request in Hx.
    now apply filter_In in Hx.
Qed.

Lemma find_request_In (r : nat) (rs : list Request) (req : Request) :
  find_request r rs = Some req -> In req rs /\ rid req = r.
Proof.
  intros H. apply find_some in H. destruct H as [Hin Heq].
  split; [exact Hin | now apply Nat.eqb_eq].
Qed.

Section FetchFacts.

Variable fitDue : nat -> bool.

(** What a commit does to the fetches: nothing when the range is the one of
    the previous render; otherwise every fetch in flight is deactivated and
    one is issued for the new range. *)
Lemma commit_fetches (prev : AppState) (w : World) :
  let w' := commit fitDue prev w in
  range (st w') = range (st w) /\
  (range prev = range (st w) ->
   inFlight w' = inFlight w /\ issued w' = issued w) /\
  (range prev <> range (st w) ->
   inFlight w' = map deactivate (inFlight w)
                 ++ [{| rid := issued w; requested := range (st w);
                        isActive := true |}] /\
   issued w' = S (issued w)).
Proof.
  unfold commit. cbv zeta.
  destruct (render_frame fitDue w) as (Hst & Hin & Hiss & _).
  rewrite Hst.
  match goal with
  | |- context [effectsChanged ?a ?b] => generalize (effectsChanged a b)
  end.
  intros again.
  assert (Hagain : forall x : World,
             range (st (if again then render fitDue x else x)) = range (st x) /\
             inFlight (if again then render fitDue x else x) = inFlight x /\
             issued (if again then render fitDue x else x) = issued x).
  { intros x. destruct again; [|auto].
    destruct (render_frame fitDue x) as (H1 & H2 & H3 & _).
    now rewrite H1, H2, H3. }
  destruct (TimeRange_eqb (range prev) (range (st w))) eqn:Hr.
  - apply TimeRange_eqb_eq in Hr.
    match goal with
    | |- context [if again then render fitDue ?x else ?x] =>
        destruct (Hagain x) as (H1 & H2 & H3)
    end.
    rewrite H1, H2, H3.
    destruct (_ =? _)%nat; simpl; rewrite ?Hst, ?Hin, ?Hiss;
      (split; [reflexivity | split; [auto | intros Hn; now elim Hn]]).
  - assert (Hne : range prev <> range (st w)).
    { intros E. apply TimeRange_eqb_eq in E. congruence. }
    match goal with
    | |- context [if again then render fitDue ?x else ?x] =>
        destruct (Hagain x) as (H1 & H2 & H3)
    end.
    rewrite H1, H2, H3.
    destruct (_ =? _)%nat; simpl; rewrite ?Hst, ?Hin, ?Hiss;
      (split; [reflexivity | split; [intros E; now elim Hne | auto]]).
Qed.

Lemma step_fetch_inv (ev : Event) (w : World) :
  fetch_inv w -> fetch_inv (step fitDue ev w).
Proof.
  unfold fetch_inv, step. intros Hinv.
  destruct (handle_fetch_frame ev w) as (Hiss & Hincl).
  destruct (commit_fetches (st w) (handle ev w)) as (Hrange & Hsame & Hnew).
  cbv zeta in Hrange, Hsame, Hnew.
  destruct (TimeRange_eqb (range (st w)) (range (st (handle ev w)))) eqn:Hr.
  - apply TimeRange_eqb_eq in Hr. destruct (Hsame Hr) as (H1 & H2).
    rewrite H1, H2, Hrange, Hiss, <- Hr.
    rewrite Forall_forall in *. intros q Hq. apply Hinv, Hincl, Hq.
  - assert (Hne : range (st w) <> range (st (handle ev w))).
    { intros E. apply TimeRange_eqb_eq in E. congruence. }
    destruct (Hnew Hne) as (H1 & H2).
    rewrite H1, H2, Hrange, Hiss. apply Forall_app. split.
    + rewrite Forall_forall in *. intros q Hq.
      apply in_map_iff in Hq. destruct Hq as (q0 & <- & Hq0).
      simpl. split; [|discriminate].
      destruct (Hinv q0 (Hincl q0 Hq0)) as (Hlt & _). lia.
    + constructor; [|constructor]. simpl. split; [lia | auto].
Qed.

Lemma mount_fetch_inv : fetch_inv mount.
Proof.
  unfold fetch_inv. simpl. constructor; [|constructor].
  simpl. split; [lia | auto].
Qed.

Lemma run_fetch_inv (evs : list Event) (w : World) :
  fetch_inv w -> fetch_inv (run fitDue evs w).
Proof.
  revert w. induction evs as [|ev evs IH]; intros w Hw; simpl; [exact Hw|].
  apply IH, step_fetch_inv, Hw.
Qed.

(** The settlement of a fetch that is not active changes no state cell and
    fires no toast. *)
Lemma inactive_settlement_discarded (w : World) (r : nat) (req : Request)
  (p : Promise Response) :
  find_request r (inFlight w) = Some req ->
  isActive req = false ->
  st (step fitDue (TransportSettled r p) w) = st w /\
  toasts (step fitDue (TransportSettled r p) w) = toasts w.
Proof.
  intros Hfind Hact. unfold step, handle. rewrite Hfind, Hact, settle_inactive.
  rewrite commit_same_deps by reflexivity.
  destruct (render_frame fitDue (withInFlight (remove_request r (inFlight w)) w))
    as (H1 & _ & _ & H4).
  now rewrite H1, H4.
Qed.

End FetchFacts.

(** C7: in every world the application can reach, a fetch in flight that is
    still active is the last one issued and asks for the range of the state;
    the settlement of any earlier fetch, success or failure, changes no state
    cell (the collection, the error, the loading flag and all the others) and
    fires no toast. *)
Theorem stale_response_discarded (fitDue : nat -> bool) (evs : list Event)
  (r : nat) (req : Request) (p : Promise Response) :
  let w := run fitDue evs mount in
  find_request r (inFlight w) = Some req ->
  (isActive req = true -> S r = issued w /\ requested req = range (st w)) /\
  (S r <> issued w ->
   st (step fitDue (TransportSettled r p) w) = st w /\
   toasts (step fitDue (TransportSettled r p) w) = toasts w).
Proof.
  intros w Hfind.
  pose proof (run_fetch_inv fitDue evs mount (mount_fetch_inv)) as Hinv.
  fold w in Hinv. unfold fetch_inv in Hinv. rewrite Forall_forall in Hinv.
  destruct (find_request_In _ _ _ Hfind) as (Hin & Hrid).
  destruct (Hinv req Hin) as (_ & Hactive). rewrite Hrid in Hactive.
  split; [exact Hactive|].
  intros Hstale. apply (inactive_settlement_discarded fitDue w r req p Hfind).
  destruct (isActive req); [|reflexivity].
  destruct (Hactive eq_refl) as (E & _). now elim Hstale.
Qed.

(** The range is changed to hour while the day feed is still awaited; then
    the day feed arrives. *)
Lemma stale_response_discarded_witness :
  let w := run everyRender [EditPendingRange hour; ApplyFilters true] mount in
  map (fun q => (rid q, requested q, isActive q)) (inFlight w)
  = [(0%nat, day, false); (1%nat, hour, true)] /\
  st (step everyRender (TransportSettled 0 dayFeed) w) = st w /\
  toasts (step everyRender (TransportSettled 0 dayFeed) w) = toasts w.
Proof.
  split; [reflexivity|].
  apply (stale_response_discarded everyRender
           [EditPendingRange hour; ApplyFilters true] 0
           {| rid := 0; requested := day; isActive := false |} dayFeed eq_refl).
  discriminate.
Defined.

(** ** Automatic fit after a pick *)

Lemma handle_fits (ev : Event) (w : World) : fits (handle ev w) = fits w.
Proof.
  destruct ev; simpl; try reflexivity.
  - now destruct (existsb _ _).
  - now destruct (_ >? _).
  - now destruct (_ <? _).
  - destruct (find_request r (inFlight w)) as [req|]; [|reflexivity].
    now destruct (settle_frame (isActive req)
                    (fetchEarthquakes (fun _ => p) (requested req))
                    (withInFlight (remove_request r (inFlight w)) w))
      as (_ & _ & -> & _).
Qed.

Lemma handle_keeps_disabled (ev : Event) (w : World) :
  isApply ev = false ->
  autoFitEnabled (st w) = false ->
  autoFitEnabled (st (handle ev w)) = false.
Proof.
  intros Hev Hd. destruct ev; simpl; try discriminate; try exact Hd;
    try reflexivity.
  - now destruct (existsb _ _).
  - now destruct (_ >? _).
  - now destruct (_ <? _).
  - now destruct open.
  - destruct (find_request r (inFlight w)) as [req|]; [|exact Hd].
    destruct (settle_frame (isActive req)
                (fetchEarthquakes (fun _ => p) (requested req))
                (withInFlight (remove_request r (inFlight w)) w))
      as (_ & _ & _ & _ & _ & ->).
    exact Hd.
Qed.

Section AutoFitFacts.

Variable fitDue : nat -> bool.

Lemma commit_disabled (prev : AppState) (w : World) :
  autoFitEnabled (st w) = false ->
  sameCount prev (st w) = true ->
  autoFitEnabled (st (commit fitDue prev w)) = false /\
  fits (commit fitDue prev w) = fits w.
Proof.
  intros Hd Hc. unfold sameCount in Hc. apply Nat.eqb_eq in Hc.
  unfold commit. cbv zeta.
  destruct (render_disabled fitDue w Hd) as (Hf & _).
  pose proof (render_st fitDue w) as Hst.
  set (w2 := if TimeRange_eqb (range prev) (range (st (render fitDue w)))
             then render fitDue w else fetch_effect (render fitDue w)).
  assert (H2 : autoFitEnabled (st w2) = false /\ fits w2 = fits w /\
               filteredOf (st w2) = filteredOf (st w)).
  { subst w2. destruct (TimeRange_eqb _ _); simpl; rewrite ?Hst; auto. }
  destruct H2 as (Hd2 & Hf2 & Hfl2).
  rewrite !sortedOf_length, Hfl2, Hc, Nat.eqb_refl.
  destruct (effectsChanged _ _).
  - rewrite render_st. destruct (render_disabled fitDue w2 Hd2) as (Hf3 & _).
    split; [exact Hd2 | congruence].
  - split; [exact Hd2 | exact Hf2].
Qed.

Lemma step_disabled (ev : Event) (w : World) :
  isApply ev = false ->
  sameCount (st w) (st (handle ev w)) = true ->
  autoFitEnabled (st w) = false ->
  autoFitEnabled (st (step fitDue ev w)) = false /\
  fits (step fitDue ev w) = fits w.
Proof.
  intros Hev Hc Hd. unfold step.
  destruct (commit_disabled (st w) (handle ev w)
              (handle_keeps_disabled ev w Hev Hd) Hc) as (H1 & H2).
  split; [exact H1 | now rewrite H2, handle_fits].
Qed.

Lemma run_disabled (evs : list Event) (w : World) :
  autoFitEnabled (st w) = false ->
  quiet fitDue evs w = true ->
  autoFitEnabled (st (run fitDue evs w)) = false /\
  fits (run fitDue evs w) = fits w.
Proof.
  revert w. induction evs as [|ev evs IH]; intros w Hd Hq; simpl; [auto|].
  simpl in Hq. apply andb_true_iff in Hq. destruct Hq as (Hq & Hrest).
  apply andb_true_iff in Hq. destruct Hq as (Hev & Hc).
  apply negb_true_iff in Hev.
  destruct (step_disabled ev w Hev Hc Hd) as (H1 & H2).
  destruct (IH (step fitDue ev w) H1 Hrest) as (H3 & H4).
  split; [exact H3 | congruence].
Qed.

Lemma pick_sameCount (f : EarthquakeFeature) (w : World) :
  sameCount (st w) (st (handle (PickEvent f) w)) = true.
Proof. unfold sameCount. simpl. apply Nat.eqb_refl. Qed.

(** The state after a commit has automatic fit enabled when the state
    before the commit has it, and also when the count of the filtered set
    differs from the one of the previous render. *)
Lemma commit_enabled (prev : AppState) (w : World) :
  autoFitEnabled (st w) = true \/ sameCount prev (st w) = false ->
  autoFitEnabled (st (commit fitDue prev w)) = true.
Proof.
  intros H. unfold commit. cbv zeta.
  pose proof (render_st fitDue w) as Hst.
  set (w2 := if TimeRange_eqb (range prev) (range (st (render fitDue w)))
             then render fitDue w else fetch_effect (render fitDue w)).
  assert (H2 : autoFitEnabled (st w2) = autoFitEnabled (st w) /\
               filteredOf (st w2) = filteredOf (st w)).
  { subst w2. destruct (TimeRange_eqb _ _); simpl; rewrite ?Hst; auto. }
  destruct H2 as (Hd2 & Hfl2).
  rewrite !sortedOf_length, Hfl2.
  assert (H3 : autoFitEnabled
                 (st (if (List.length (filteredOf prev)
                          =? List.length (filteredOf (st w)))%nat
                      then w2 else page_effect w2)) = true).
  { destruct (_ =? _)%nat eqn:Hc; [|reflexivity].
    rewrite Hd2. destruct H as [H|H]; [exact H|].
    unfold sameCount in H. congruence. }
  destruct (effectsChanged _ _); [rewrite render_st|]; exact H3.
Qed.

(** The render that follows a pick leaves the flag set, whether the effect of
    [FitBounds] runs in it or not. *)
Lemma pick_leaves_flag_set (f : EarthquakeFeature) (w : World) :
  suppressFitRef (step fitDue (PickEvent f) w) = true.
Proof.
  unfold step. rewrite commit_same_deps by reflexivity.
  now destruct (render_disabled fitDue (handle (PickEvent f) w) eq_refl)
    as (_ & ->).
Qed.

End AutoFitFacts.

(** C9: the pick of an event, on a marker or in a list, disables automatic
    fit and requests no fit.  It stays disabled, and no fit is requested,
    through every sequence of events that contains no application of the
    filters and in which the count of the filtered set does not change, also
    when the points themselves change.  Applying the filters enables it
    again, and so does every event that changes the count of the filtered
    set.  The effect of [FitBounds] does nothing when it is disabled, whatever
    the points are. *)
Theorem autofit_disabled_after_pick (fitDue : nat -> bool) (w : World)
  (f : EarthquakeFeature) :
  let w1 := step fitDue (PickEvent f) w in
  (autoFitEnabled (st w1) = false /\ selected (st w1) = Some f /\
   fits w1 = fits w) /\
  (forall evs, quiet fitDue evs w1 = true ->
     autoFitEnabled (st (run fitDue evs w1)) = false /\
     fits (run fitDue evs w1) = fits w1) /\
  (forall w0 fromSheet,
     autoFitEnabled (st (step fitDue (ApplyFilters fromSheet) w0)) = true) /\
  (forall w0 ev, sameCount (st w0) (st (handle ev w0)) = false ->
     autoFitEnabled (st (step fitDue ev w0)) = true) /\
  (forall points w0, FitBounds_effect points true w0 = w0).
Proof.
  intros w1.
  assert (H1 : autoFitEnabled (st w1) = false /\ selected (st w1) = Some f /\
               fits w1 = fits w).
  { subst w1. unfold step.
    rewrite commit_same_deps by reflexivity.
    rewrite render_st.
    destruct (render_disabled fitDue (handle (PickEvent f) w) eq_refl) as (Hf & _).
    rewrite Hf. repeat split. }
  split; [exact H1|]. destruct H1 as (Hd & _ & _).
  split; [intros evs Hq; now apply run_disabled|].
  split; [|split].
  - intros w0 fromSheet. unfold step. apply commit_enabled. left.
    now destruct fromSheet.
  - intros w0 ev Hc. unfold step. apply commit_enabled. now right.
  - reflexivity.
Qed.

(** After the pick the hour feed arrives with as many events that pass the
    filter, at other places: automatic fit stays disabled and no fit is
    requested. *)
Lemma autofit_disabled_after_pick_witness :
  let w1 := step everyRender (PickEvent tokyo) awaitingHour in
  let evs := [NextPage; TransportSettled 1 hourFeed; DialogOpenChange false] in
  (quiet everyRender evs w1 = true /\
   pointsOf (st (run everyRender evs w1)) <> pointsOf (st w1) /\
   autoFitEnabled (st (run everyRender evs w1)) = false /\
   fits (run everyRender evs w1) = fits w1) /\
  (sameCount (st w1) (st (handle (TransportSettled 1 smallFeed) w1)) = false /\
   autoFitEnabled (st (step everyRender (TransportSettled 1 smallFeed) w1)) = true).
Proof.
  intros w1 evs.
  assert (Hq : quiet everyRender evs w1 = true) by (vm_compute; reflexivity).
  assert (Hc : sameCount (st w1) (st (handle (TransportSettled 1 smallFeed) w1))
               = false) by (vm_compute; reflexivity).
  destruct (autofit_disabled_after_pick everyRender awaitingHour tokyo)
    as (_ & Hquiet & _ & Hcount & _).
  split.
  - split; [exact Hq|]. split; [vm_compute; discriminate|].
    exact (Hquiet evs Hq).
  - split; [exact Hc|]. exact (Hcount w1 (TransportSettled 1 smallFeed) Hc).
Defined.


(** * Further properties *)

(** ** Numbers *)

Lemma Prim2SF_nan : Prim2SF nan = S754_nan.
Proof. reflexivity. Qed.

Lemma leb_nan_l (x : float) : (nan <=? x)%float = false.
Proof. rewrite leb_spec, Prim2SF_nan. reflexivity. Qed.

Lemma leb_neg_infinity (x : float) :
  (x <=? neg_infinity)%float = true -> x = neg_infinity.
Proof.
  rewrite leb_spec. intros H. apply Prim2SF_inj.
  change (Prim2SF neg_infinity) with (S754_infinity true) in *.
  destruct (Prim2SF x) as [s| [|] | |s m e]; try discriminate; try reflexivity;
    try (destruct s; discriminate).
Qed.

(** ** The filter: edges *)

(** X1: with a minimum magnitude that is not a number (the magnitude input
    left empty gives [NaN]) the filter returns no event at all. *)
Theorem filtered_nan (query : string) (events : list EarthquakeFeature) :
  filtered nan query events = [].
Proof.
  unfold filtered. induction events as [|f fs IH]; simpl; [reflexivity|].
  unfold passes at 1. now rewrite leb_nan_l.
Qed.

(** X2: an event without magnitude is returned only when the minimum
    magnitude is negative infinity. *)
Theorem filtered_null_magnitude (minMag : float) (query : string)
  (events : list EarthquakeFeature) (f : EarthquakeFeature) :
  mag (properties f) = None ->
  In f (filtered minMag query events) ->
  minMag = neg_infinity.
Proof.
  intros Hm Hin. apply filter_In in Hin. destruct Hin as (_ & Hp).
  unfold passes in Hp. rewrite Hm in Hp. simpl in Hp.
  apply andb_true_iff in Hp. destruct Hp as (Hp & _).
  now apply leb_neg_infinity.
Qed.

Lemma filtered_null_magnitude_witness :
  In (quake "d" None None None)
     (filtered neg_infinity EmptyString [anchorage; quake "d" None None None]) /\
  neg_infinity = neg_infinity.
Proof.
  assert (Hin : In (quake "d" None None None)
                  (filtered neg_infinity EmptyString
                     [anchorage; quake "d" None None None]))
    by (vm_compute; right; left; reflexivity).
  split; [exact Hin|].
  exact (filtered_null_magnitude neg_infinity EmptyString
           [anchorage; quake "d" None None None] (quake "d" None None None)
           eq_refl Hin).
Defined.

(** ** The filter: the place text *)

Module JsStringNorm.

Import JsString.

Lemma isWhiteSpace_lowerChar (c : ascii) :
  isWhiteSpace (lowerChar c) = isWhiteSpace c.
Proof. destruct c as [[] [] [] [] [] [] [] []]; reflexivity. Qed.

Lemma lowerChar_idem (c : ascii) : lowerChar (lowerChar c) = lowerChar c.
Proof. destruct c as [[] [] [] [] [] [] [] []]; reflexivity. Qed.

Lemma toLowerCase_idem (s : string) : toLowerCase (toLowerCase s) = toLowerCase s.
Proof.
  induction s as [|c s IH]; simpl; [reflexivity|].
  now rewrite lowerChar_idem, IH.
Qed.

Lemma trimStart_toLowerCase (s : string) :
  trimStart (toLowerCase s) = toLowerCase (trimStart s).
Proof.
  induction s as [|c s IH]; simpl; [reflexivity|].
  rewrite isWhiteSpace_lowerChar. now destruct (isWhiteSpace c).
Qed.

Lemma trimEnd_toLowerCase (s : string) :
  trimEnd (toLowerCase s) = toLowerCase (trimEnd s).
Proof.
  induction s as [|c s IH]; simpl; [reflexivity|].
  rewrite IH, isWhiteSpace_lowerChar.
  destruct (trimEnd s); simpl; [now destruct (isWhiteSpace c) | reflexivity].
Qed.

Lemma trim_toLowerCase (s : string) : trim (toLowerCase s) = toLowerCase (trim s).
Proof. unfold trim. now rewrite trimStart_toLowerCase, trimEnd_toLowerCase. Qed.

Lemma trimStart_clean (s : string) : startsClean (trimStart s).
Proof.
  induction s as [|c s IH]; simpl; [exact I|].
  destruct (isWhiteSpace c) eqn:Hc; [exact IH | exact Hc].
Qed.

Lemma trimStart_of_clean (s : string) : startsClean s -> trimStart s = s.
Proof. destruct s as [|c s]; simpl; [reflexivity | now intros ->]. Qed.

Lemma trimEnd_clean (s : string) : startsClean s -> startsClean (trimEnd s).
Proof.
  destruct s as [|c s]; simpl; [auto|]. intros Hc.
  destruct (trimEnd s); simpl; [now rewrite Hc | exact Hc].
Qed.

Lemma trimEnd_idem (s : string) : trimEnd (trimEnd s) = trimEnd s.
Proof.
  induction s as [|c s IH]; simpl; [reflexivity|].
  destruct (trimEnd s) as [|d r] eqn:Hr.
  - destruct (isWhiteSpace c) eqn:Hc; simpl; [reflexivity | now rewrite Hc].
  - simpl in *. now rewrite IH.
Qed.

Lemma trim_idem (s : string) : trim (trim s) = trim s.
Proof.
  unfold trim.
  rewrite (trimStart_of_clean (trimEnd (trimStart s)))
    by apply trimEnd_clean, trimStart_clean.
  apply trimEnd_idem.
Qed.

End JsStringNorm.

(** X3: white space around the place text and its letter case do not
    matter: the filter returns the same events for a place text as for its
    trimmed and lower-cased form; a text of white space only filters on the
    magnitude alone. *)
Theorem filtered_query_normal (minMag : float) (query : string)
  (events : list EarthquakeFeature) :
  filtered minMag query events
  = filtered minMag (JsString.toLowerCase (JsString.trim query)) events /\
  (JsString.trim query = EmptyString ->
   filtered minMag query events = filtered minMag EmptyString events).
Proof.
  split.
  - unfold filtered. apply filter_ext. intros f. unfold passes.
    now rewrite JsStringNorm.trim_toLowerCase, JsStringNorm.trim_idem,
      JsStringNorm.toLowerCase_idem.
  - intros Ht. unfold filtered. apply filter_ext. intros f. unfold passes.
    now rewrite Ht.
Qed.

Lemma filtered_query_normal_witness :
  JsString.trim "   " = EmptyString /\
  filtered 0%float "   " [anchorage; tokyo]
  = filtered 0%float EmptyString [anchorage; tokyo].
Proof.
  split; [reflexivity|].
  apply (filtered_query_normal 0%float "   " [anchorage; tokyo]). reflexivity.
Defined.

(** ** Pagination: sizes and order *)

Lemma pageItems_length (sorted : list EarthquakeFeature) (p : Z) :
  1 <= p ->
  Z.of_nat (List.length (pageItems sorted p))
  = Z.min pageSize (Z.max 0 (Z.of_nat (List.length sorted) - pageSize * (p - 1))).
Proof.
  intros Hp.
  replace p with (Z.of_nat (Z.to_nat (p - 1)) + 1) at 1 by lia.
  rewrite pageItems_nth, length_firstn, length_skipn.
  unfold pageSize. lia.
Qed.

(** X4: for a page number from 1 on, the page has [min 9 (max 0 (n - 9 (p -
    1)))] entries of the [n] sorted events: never more than 9, exactly 9 on
    every page before the last, and between 1 and 9 on the last page when
    there is an event at all. *)
Theorem pageItems_sizes (sorted : list EarthquakeFeature) (p : Z) :
  1 <= p ->
  let n := Z.of_nat (List.length sorted) in
  let size := Z.of_nat (List.length (pageItems sorted p)) in
  size = Z.min 9 (Z.max 0 (n - 9 * (p - 1))) /\
  size <= 9 /\
  (p < totalPages sorted -> size = 9) /\
  (p = totalPages sorted -> sorted <> [] -> 1 <= size).
Proof.
  intros Hp n size. subst size.
  rewrite (pageItems_length sorted p Hp). fold n.
  pose proof (ceil_div_spec n pageSize eq_refl) as Hc.
  unfold totalPages. fold n. unfold pageSize in *.
  assert (Hn : sorted <> [] -> 1 <= n).
  { intros Hne. subst n. destruct sorted; [now elim Hne | simpl; lia]. }
  split; [reflexivity|]. split; [lia|]. split; [lia|].
  intros He Hne. specialize (Hn Hne). lia.
Qed.

Lemma pageItems_sizes_witness :
  let sorted := sortedByTimeDesc twelve in
  Z.of_nat (List.length (pageItems sorted 1)) = 9 /\
  1 <= Z.of_nat (List.length (pageItems sorted 2)).
Proof.
  intros sorted.
  destruct (pageItems_sizes sorted 1 ltac:(lia)) as (_ & _ & H9 & _).
  destruct (pageItems_sizes sorted 2 ltac:(lia)) as (_ & _ & _ & H1).
  split; [apply H9; reflexivity | apply H1; [reflexivity | discriminate]].
Defined.

Lemma StronglySorted_app_cross {A : Type} (R : A -> A -> Prop) (l1 l2 : list A) :
  StronglySorted R (l1 ++ l2) ->
  forall x y, In x l1 -> In y l2 -> R x y.
Proof.
  induction l1 as [|a l1 IH]; simpl; intros Hs x y Hx Hy; [contradiction|].
  inversion Hs as [|? ? Hs' Hall]; subst.
  destruct Hx as [<-|Hx].
  - rewrite Forall_forall in Hall. apply Hall, in_or_app. now right.
  - now apply IH.
Qed.

Lemma StronglySorted_firstn {A : Type} (R : A -> A -> Prop) (n : nat) (l : list A) :
  StronglySorted R l -> StronglySorted R (firstn n l).
Proof.
  intros Hs. revert n. induction Hs as [|a l Hs IH Hall]; intros [|n]; simpl;
    try constructor; auto.
  rewrite Forall_forall in *. intros x Hx. apply Hall.
  rewrite <- (firstn_skipn n l). apply in_or_app. now left.
Qed.

Lemma StronglySorted_skipn {A : Type} (R : A -> A -> Prop) (n : nat) (l : list A) :
  StronglySorted R l -> StronglySorted R (skipn n l).
Proof.
  intros Hs. revert n. induction Hs as [|a l Hs IH Hall]; intros [|n]; simpl;
    try constructor; auto.
Qed.

Lemma In_skipn {A : Type} (n : nat) (l : list A) (x : A) :
  In x (skipn n l) -> In x l.
Proof.
  intros Hx. rewrite <- (firstn_skipn n l). apply in_or_app. now right.
Qed.

(** X5: the list is in descending order of time within a page and from
    page to page: the entries of every page are sorted by descending
    timestamp (null as 0), and an entry of a page is at least as recent as
    every entry of a later page. *)
Theorem pageItems_ordered (fs : list EarthquakeFeature) (p p' : Z) :
  let sorted := sortedByTimeDesc fs in
  StronglySorted timeDesc (pageItems sorted p) /\
  (1 <= p -> p < p' ->
   forall x y, In x (pageItems sorted p) -> In y (pageItems sorted p') ->
               timeOf y <= timeOf x).
Proof.
  intros sorted.
  pose proof (sortedByTimeDesc_sorted fs) as Hs. fold sorted in Hs.
  split.
  - unfold pageItems, slice.
    apply StronglySorted_firstn, StronglySorted_skipn, Hs.
  - intros Hp Hlt x y Hx Hy.
    replace p with (Z.of_nat (Z.to_nat (p - 1)) + 1) in Hx by lia.
    replace p' with (Z.of_nat (Z.to_nat (p' - 1)) + 1) in Hy by lia.
    rewrite pageItems_nth in Hx, Hy.
    set (a := (Z.to_nat pageSize * Z.to_nat (p - 1))%nat) in *.
    set (b := (Z.to_nat pageSize * Z.to_nat (p' - 1))%nat) in *.
    set (k := Z.to_nat pageSize) in *.
    assert (Hab : (a + k <= b)%nat) by (unfold a, b, k, pageSize; lia).
    rewrite <- (firstn_skipn (a + k) sorted) in Hs.
    apply (StronglySorted_app_cross timeDesc _ _ Hs x y).
    + rewrite firstn_add. apply in_or_app. now right.
    + replace b with ((b - (a + k)) + (a + k))%nat in Hy by lia.
      rewrite <- skipn_skipn in Hy.
      apply (In_skipn (b - (a + k))).
      rewrite <- (firstn_skipn k (skipn (b - (a + k)) (skipn (a + k) sorted))).
      apply in_or_app. left. exact Hy.
Qed.

Lemma pageItems_ordered_witness :
  let sorted := sortedByTimeDesc twelve in
  let x := quake "q" (Some 3%float) None (Some 3) in
  let y := quake "q" (Some 3%float) None (Some 2) in
  In x (pageItems sorted 1) /\ In y (pageItems sorted 2) /\
  timeOf y <= timeOf x.
Proof.
  intros sorted x y.
  assert (Hx : In x (pageItems sorted 1))
    by (vm_compute; repeat (try (left; reflexivity); right)).
  assert (Hy : In y (pageItems sorted 2))
    by (vm_compute; repeat (try (left; reflexivity); right)).
  split; [exact Hx | split; [exact Hy|]].
  destruct (pageItems_ordered twelve 1 2) as (_ & H).
  apply (H ltac:(lia) ltac:(lia) x y Hx Hy).
Defined.

(** ** The state after a commit *)

Lemma sortedOf_effects (s : AppState) :
  sortedOf (setError None (setLoading true s)) = sortedOf s.
Proof. reflexivity. Qed.



Lemma st_fetch_effect (w : World) :
  st (fetch_effect w) = setError None (setLoading true (st w)).
Proof. reflexivity. Qed.

Lemma st_page_effect (w : World) :
  st (page_effect w) = setAutoFitEnabled true (setPage 1 (st w)).
Proof. reflexivity. Qed.

Section CommitFacts.

Variable fitDue : nat -> bool.

Lemma commit_st (prev : AppState) (w : World) :
  st (commit fitDue prev w) = afterEffects prev (st w).
Proof.
  unfold commit, afterEffects. cbv zeta. rewrite render_st.
  destruct (TimeRange_eqb (range prev) (range (st w)));
    rewrite ?st_fetch_effect, ?render_st;
    destruct (_ =? _)%nat; destruct (effectsChanged _ _);
    rewrite ?render_st, ?st_page_effect, ?st_fetch_effect, ?render_st;
    reflexivity.
Qed.

Lemma commit_toasts (prev : AppState) (w : World) :
  toasts (commit fitDue prev w) = toasts w.
Proof.
  unfold commit. cbv zeta.
  assert (Hr : forall x, toasts (render fitDue x) = toasts x)
    by (intros x; apply render_frame).
  destruct (TimeRange_eqb _ _); destruct (_ =? _)%nat;
    destruct (effectsChanged _ _); rewrite ?Hr; simpl; rewrite ?Hr; reflexivity.
Qed.

Lemma render_fits_inv (w : World) : fits_inv w -> fits_inv (render fitDue w).
Proof.
  unfold fits_inv, render. intros H.
  destruct (mapLayerShown (st w) && fitDue (renders w)); [|exact H].
  unfold FitBounds_effect.
  destruct (negb (autoFitEnabled (st w))); [exact H|].
  simpl. destruct (suppressFitRef w); [exact H|].
  destruct (pointsOf (st w)) as [|pt pts] eqn:Hp; simpl; [exact H|].
  apply Forall_app. split; [exact H|]. constructor; [discriminate | constructor].
Qed.

Lemma commit_fits_inv (prev : AppState) (w : World) :
  fits_inv w -> fits_inv (commit fitDue prev w).
Proof.
  intros H. unfold commit. cbv zeta.
  apply render_fits_inv in H.
  assert (H2 : fits_inv (if TimeRange_eqb (range prev) (range (st (render fitDue w)))
                         then render fitDue w else fetch_effect (render fitDue w)))
    by (destruct (TimeRange_eqb _ _); exact H).
  match goal with
  | |- context [if (?a =? ?b)%nat then ?x else page_effect ?x] =>
      assert (H3 : fits_inv (if (a =? b)%nat then x else page_effect x))
        by (destruct (a =? b)%nat; exact H2)
  end.
  destruct (effectsChanged _ _); [now apply render_fits_inv | exact H3].
Qed.

End CommitFacts.

(** ** The current page *)




Lemma settle_view (active : bool) (outcome : Promise EarthquakeGeoJSON)
  (w : World) :
  let w' := settle active outcome w in
  page (st w') = page (st w) /\ selected (st w') = selected (st w) /\
  minMag (st w') = minMag (st w) /\ query (st w') = query (st w).
Proof. destruct active, outcome; simpl; auto. Qed.


Section PageFacts.

Variable fitDue : nat -> bool.




End PageFacts.




(** ** The loading flag, the error and the toasts *)

Lemma afterEffects_cells (prev s : AppState) :
  let s' := afterEffects prev s in
  (range prev = range s -> loading s' = loading s /\ error s' = error s) /\
  (range prev <> range s -> loading s' = true /\ error s' = None) /\
  data s' = data s /\ minMag s' = minMag s /\ query s' = query s /\
  range s' = range s /\ selected s' = selected s.
Proof.
  unfold afterEffects.
  destruct (TimeRange_eqb (range prev) (range s)) eqn:Hr.
  - apply TimeRange_eqb_eq in Hr.
    destruct (_ =? _)%nat; simpl;
      (split; [auto | split; [intros Hn; now elim Hn | auto]]).
  - assert (Hne : range prev <> range s).
    { intros E. apply TimeRange_eqb_eq in E. congruence. }
    destruct (_ =? _)%nat; simpl;
      (split; [intros E; now elim Hne | split; [auto | auto]]).
Qed.

Lemma handle_cases (ev : Event) (w : World) :
  (inFlight (handle ev w) = inFlight w /\
   loading (st (handle ev w)) = loading (st w) /\
   error (st (handle ev w)) = error (st w) /\
   data (st (handle ev w)) = data (st w) /\
   toasts (handle ev w) = toasts w) \/
  (exists r p req,
      ev = TransportSettled r p /\ find_request r (inFlight w) = Some req).
Proof.
  destruct ev; simpl; try (left; repeat split; reflexivity).
  - left. destruct fromSheet; repeat split; reflexivity.
  - left. destruct (existsb _ _); repeat split; reflexivity.
  - left. destruct (_ >? _); repeat split; reflexivity.
  - left. destruct (_ <? _); repeat split; reflexivity.
  - left. destruct open; repeat split; reflexivity.
  - destruct (find_request r (inFlight w)) as [req|] eqn:Hf.
    + right. now exists r, p, req.
    + left. repeat split; reflexivity.
Qed.

Lemma remove_request_absent (r : nat) (rs : list Request) :
  ~ In r (map rid rs) -> remove_request r rs = rs.
Proof.
  induction rs as [|a rs IH]; simpl; intros Hn; [reflexivity|].
  destruct (Nat.eqb_spec (rid a) r) as [E|E]; simpl.
  - elim Hn. now left.
  - rewrite IH; [reflexivity|]. intros Hin. apply Hn. now right.
Qed.

Lemma remove_request_NoDup (r : nat) (rs : list Request) :
  NoDup (map rid rs) -> NoDup (map rid (remove_request r rs)).
Proof.
  induction rs as [|a rs IH]; simpl; intros Hd; [constructor|].
  inversion Hd as [|? ? Hn Hd']; subst.
  destruct (negb (rid a =? r)%nat); simpl; [|now apply IH].
  constructor; [|now apply IH].
  intros Hin. apply Hn. apply in_map_iff in Hin. destruct Hin as (x & Hx & Hin).
  apply filter_In in Hin. apply in_map_iff. exists x. tauto.
Qed.

Lemma remove_inactive (r : nat) (rs : list Request) (req : Request) :
  NoDup (map rid rs) ->
  find_request r rs = Some req ->
  isActive req = false ->
  existsb isActive (remove_request r rs) = existsb isActive rs.
Proof.
  induction rs as [|a rs IH]; simpl; intros Hd Hf Ha; [discriminate|].
  inversion Hd as [|? ? Hn Hd']; subst.
  destruct (Nat.eqb_spec (rid a) r) as [E|E]; simpl.
  - injection Hf as <-. rewrite Ha. simpl. subst r.
    now rewrite remove_request_absent.
  - f_equal. now apply IH.
Qed.

Lemma remove_active (r k : nat) (rs : list Request) :
  (forall x, In x rs -> isActive x = true -> S (rid x) = k) ->
  S r = k ->
  existsb isActive (remove_request r rs) = false.
Proof.
  intros Hall Hr.
  destruct (existsb isActive (remove_request r rs)) eqn:He; [|reflexivity].
  apply existsb_exists in He. destruct He as (x & Hx & Hax).
  apply filter_In in Hx. destruct Hx as (Hin & Hne).
  specialize (Hall x Hin Hax).
  apply negb_true_iff, Nat.eqb_neq in Hne. lia.
Qed.

Lemma existsb_deactivate (rs : list Request) :
  existsb isActive (map deactivate rs) = false.
Proof. induction rs as [|a rs IH]; simpl; [reflexivity | exact IH]. Qed.

Lemma handle_loading_inv (ev : Event) (w : World) :
  fetch_inv w -> loading_inv w -> loading_inv (handle ev w).
Proof.
  intros Hf (Hd & Hl & He).
  destruct (handle_cases ev w) as [(H1 & H2 & H3 & _) | (r & p & req & -> & Hfind)].
  - unfold loading_inv. now rewrite H1, H2, H3.
  - unfold handle. rewrite Hfind.
    unfold fetch_inv in Hf. rewrite Forall_forall in Hf.
    destruct (find_request_In _ _ _ Hfind) as (Hin & Hrid).
    destruct (isActive req) eqn:Ha.
    + assert (Hno : existsb isActive (remove_request r (inFlight w)) = false).
      { apply (remove_active r (issued w)).
        - intros x Hx Hax. now apply (Hf x Hx).
        - destruct (Hf req Hin) as (_ & Hk). rewrite <- Hrid. now apply Hk. }
      unfold loading_inv.
      destruct (fetchEarthquakes (fun _ => p) (requested req)); simpl;
        (split; [now apply remove_request_NoDup
                | split; [now rewrite Hno | discriminate]]).
    + rewrite settle_inactive. unfold loading_inv. simpl.
      split; [now apply remove_request_NoDup|].
      split; [|exact He].
      now rewrite (remove_inactive r (inFlight w) req Hd Hfind Ha).
Qed.

Lemma handle_toast_inv (ev : Event) (w : World) :
  toast_inv w -> toast_inv (handle ev w).
Proof.
  intros Ht.
  destruct (handle_cases ev w) as [(_ & _ & H3 & _ & H5) | (r & p & req & -> & Hfind)].
  - unfold toast_inv. now rewrite H3, H5.
  - unfold handle. rewrite Hfind.
    destruct (isActive req); [|now rewrite settle_inactive].
    destruct (fetchEarthquakes (fun _ => p) (requested req)) as [geo|e];
      unfold toast_inv; simpl; [exact Ht|].
    intros m [= <-]. now exists (toasts w).
Qed.

Section LoadingFacts.

Variable fitDue : nat -> bool.

Lemma step_loading_inv (ev : Event) (w : World) :
  fetch_inv w -> loading_inv w -> loading_inv (step fitDue ev w).
Proof.
  intros Hf Hl.
  destruct (handle_loading_inv ev w Hf Hl) as (Hd & Hload & Herr).
  destruct (handle_fetch_frame ev w) as (Hiss & Hincl).
  unfold loading_inv, step.
  destruct (commit_fetches fitDue (st w) (handle ev w)) as (_ & Hsame & Hnew).
  cbv zeta in Hsame, Hnew. rewrite commit_st.
  destruct (afterEffects_cells (st w) (st (handle ev w))) as (Hs & Hn & _).
  destruct (TimeRange_eqb (range (st w)) (range (st (handle ev w)))) eqn:Hr.
  - apply TimeRange_eqb_eq in Hr.
    destruct (Hsame Hr) as (-> & _). destruct (Hs Hr) as (-> & ->). auto.
  - assert (Hne : range (st w) <> range (st (handle ev w))).
    { intros E. apply TimeRange_eqb_eq in E. congruence. }
    destruct (Hnew Hne) as (-> & _). destruct (Hn Hne) as (-> & ->).
    split; [|split; [|reflexivity]].
    + rewrite map_app, map_map. simpl.
      rewrite (map_ext (fun x => rid (deactivate x)) rid) by reflexivity.
      apply NoDup_app; [exact Hd | repeat constructor; intros [] |].
      intros k Hk [<-|[]]. apply in_map_iff in Hk.
      destruct Hk as (x & Hx & Hin). apply Hincl in Hin.
      unfold fetch_inv in Hf. rewrite Forall_forall in Hf.
      destruct (Hf x Hin) as (Hlt & _). lia.
    + rewrite existsb_app, existsb_deactivate. reflexivity.
Qed.

Lemma step_toast_inv (ev : Event) (w : World) :
  toast_inv w -> toast_inv (step fitDue ev w).
Proof.
  intros Ht. apply (handle_toast_inv ev) in Ht.
  unfold toast_inv, step in *. rewrite commit_toasts, commit_st.
  destruct (afterEffects_cells (st w) (st (handle ev w))) as (Hs & Hn & _).
  destruct (TimeRange_eqb (range (st w)) (range (st (handle ev w)))) eqn:Hr.
  - apply TimeRange_eqb_eq in Hr. destruct (Hs Hr) as (_ & ->). exact Ht.
  - assert (Hne : range (st w) <> range (st (handle ev w))).
    { intros E. apply TimeRange_eqb_eq in E. congruence. }
    destruct (Hn Hne) as (_ & ->). discriminate.
Qed.

Lemma step_fits_inv (ev : Event) (w : World) :
  fits_inv w -> fits_inv (step fitDue ev w).
Proof.
  intros H. unfold step. apply commit_fits_inv.
  unfold fits_inv. now rewrite handle_fits.
Qed.

Lemma run_invariants (evs : list Event) (w : World) :
  fetch_inv w /\ loading_inv w /\ toast_inv w /\ fits_inv w ->
  let w' := run fitDue evs w in
  fetch_inv w' /\ loading_inv w' /\ toast_inv w' /\ fits_inv w'.
Proof.
  revert w. induction evs as [|ev evs IH]; intros w Hw; simpl; [exact Hw|].
  apply IH. destruct Hw as (H1 & H2 & H3 & H4).
  split; [now apply step_fetch_inv|].
  split; [now apply step_loading_inv|].
  split; [now apply step_toast_inv | now apply step_fits_inv].
Qed.

Lemma mount_invariants :
  fetch_inv mount /\ loading_inv mount /\ toast_inv mount /\ fits_inv mount.
Proof.
  split; [apply mount_fetch_inv|]. split; [|split].
  - unfold loading_inv. simpl. repeat split.
    constructor; [intros [] | constructor].
  - intros m. discriminate.
  - constructor.
Qed.

End LoadingFacts.

Lemma at_most_one_active (k : nat) (rs : list Request) :
  NoDup (map rid rs) ->
  (forall x, In x rs -> isActive x = true -> S (rid x) = k) ->
  (List.length (filter isActive rs) <= 1)%nat.
Proof.
  induction rs as [|a rs IH]; simpl; intros Hd Hall; [lia|].
  inversion Hd as [|? ? Hn Hd']; subst.
  destruct (isActive a) eqn:Ha; [|apply IH; auto].
  simpl. replace (filter isActive rs) with (@nil Request); [simpl; lia|].
  symmetry.
  destruct (filter isActive rs) as [|x xs] eqn:Hfl; [reflexivity|].
  assert (Hx : In x (filter isActive rs)) by (rewrite Hfl; now left).
  apply filter_In in Hx. destruct Hx as (Hin & Hax).
  elim Hn. apply in_map_iff. exists x. split; [|exact Hin].
  pose proof (Hall a (or_introl eq_refl) Ha).
  pose proof (Hall x (or_intror Hin) Hax). lia.
Qed.

(** X8: the loading flag is set exactly while a fetch in flight is active,
    of which there is at most one; while it is set the error is clear and the
    map shows no marker. *)
Theorem loading_while_active (fitDue : nat -> bool) (evs : list Event) :
  let w := run fitDue evs mount in
  loading (st w) = existsb isActive (inFlight w) /\
  (List.length (filter isActive (inFlight w)) <= 1)%nat /\
  (loading (st w) = true -> error (st w) = None /\ markers (st w) = []).
Proof.
  intros w.
  destruct (run_invariants fitDue evs mount (mount_invariants))
    as (Hf & (Hd & Hl & He) & _).
  fold w in Hf, Hd, Hl, He.
  split; [exact Hl|]. split.
  - apply (at_most_one_active (issued w)); [exact Hd|].
    unfold fetch_inv in Hf. rewrite Forall_forall in Hf.
    intros x Hx Hax. now apply (Hf x Hx).
  - intros Ht. split; [now apply He|].
    unfold markers, mapLayerShown. now rewrite Ht.
Qed.

Lemma loading_while_active_witness :
  let w := run everyRender
             [TransportSettled 0 dayFeed; EditPendingRange hour;
              ApplyFilters false] mount in
  loading (st w) = true /\ error (st w) = None /\ markers (st w) = [].
Proof.
  intros w.
  assert (Hl : loading (st w) = true) by (vm_compute; reflexivity).
  destruct (loading_while_active everyRender
              [TransportSettled 0 dayFeed; EditPendingRange hour;
               ApplyFilters false]) as (_ & _ & H).
  split; [exact Hl | exact (H Hl)].
Defined.

(** X9: whenever the state holds an error message, the last toast that was
    fired carries that message. *)
Theorem error_has_toast (fitDue : nat -> bool) (evs : list Event) (m : string) :
  let w := run fitDue evs mount in
  error (st w) = Some m -> exists earlier, toasts w = earlier ++ [m].
Proof.
  intros w.
  destruct (run_invariants fitDue evs mount (mount_invariants))
    as (_ & _ & Ht & _).
  apply Ht.
Qed.

Lemma error_has_toast_witness :
  let w := run everyRender
             [TransportSettled 0 dayFeed; EditPendingRange hour;
              ApplyFilters false; TransportSettled 1 (Resolved unavailable)]
             mount in
  error (st w) = Some "USGS request failed: 503"%string /\
  exists earlier, toasts w = earlier ++ ["USGS request failed: 503"%string].
Proof.
  intros w.
  assert (He : error (st w) = Some "USGS request failed: 503"%string)
    by (vm_compute; reflexivity).
  split; [exact He|].
  exact (error_has_toast everyRender
           [TransportSettled 0 dayFeed; EditPendingRange hour;
            ApplyFilters false; TransportSettled 1 (Resolved unavailable)]
           "USGS request failed: 503" He).
Defined.

(** X10: no fit of the map is ever requested for an empty set of points. *)
Theorem never_fits_nothing (fitDue : nat -> bool) (evs : list Event) :
  Forall (fun points => points <> []) (fits (run fitDue evs mount)).
Proof.
  destruct (run_invariants fitDue evs mount (mount_invariants))
    as (_ & _ & _ & H).
  exact H.
Qed.

(** ** What the events change *)



(** X12: applying the filters starts a fetch exactly when the pending range
    differs from the active one.  With the same range no fetch is issued and
    the collection, the loading flag and the error stay; with another range
    every fetch in flight is deactivated, one fetch is issued for the new
    range, the loading flag is set and the error cleared, and the collection
    stays until that fetch settles. *)
Theorem apply_fetches (fitDue : nat -> bool) (fromSheet : bool) (w : World) :
  let s := st w in
  let w' := step fitDue (ApplyFilters fromSheet) w in
  let s' := st w' in
  (range s' = pendingRange s /\ minMag s' = pendingMinMag s /\
   query s' = pendingQuery s /\ data s' = data s /\ selected s' = None) /\
  (pendingRange s = range s ->
   inFlight w' = inFlight w /\ issued w' = issued w /\
   loading s' = loading s /\ error s' = error s) /\
  (pendingRange s <> range s ->
   inFlight w' = map deactivate (inFlight w)
                 ++ [{| rid := issued w; requested := pendingRange s;
                        isActive := true |}] /\
   issued w' = S (issued w) /\ loading s' = true /\ error s' = None).
Proof.
  intros s w' s'. subst s s' w'. unfold step.
  set (wh := handle (ApplyFilters fromSheet) w).
  assert (Hh : range (st wh) = pendingRange (st w) /\
               minMag (st wh) = pendingMinMag (st w) /\
               query (st wh) = pendingQuery (st w) /\
               data (st wh) = data (st w) /\ selected (st wh) = None /\
               loading (st wh) = loading (st w) /\ error (st wh) = error (st w) /\
               inFlight wh = inFlight w /\ issued wh = issued w).
  { subst wh. destruct fromSheet; simpl; repeat split. }
  destruct Hh as (Hr & Hm & Hq & Hd & Hsel & Hl & He & Hi & Hiss).
  destruct (commit_fetches fitDue (st w) wh) as (_ & Hsame & Hnew).
  cbv zeta in Hsame, Hnew. rewrite commit_st.
  destruct (afterEffects_cells (st w) (st wh))
    as (Hs & Hn & Hd' & Hm' & Hq' & Hr' & Hsel').
  cbv zeta in Hs, Hn, Hd', Hm', Hq', Hr', Hsel'.
  split; [|split].
  - rewrite Hr', Hm', Hq', Hd', Hsel'. auto.
  - intros E. assert (E' : range (st w) = range (st wh)) by congruence.
    destruct (Hsame E') as (-> & ->). destruct (Hs E') as (-> & ->). auto.
  - intros E. assert (E' : range (st w) <> range (st wh)) by congruence.
    destruct (Hnew E') as (-> & ->). destruct (Hn E') as (-> & ->).
    rewrite Hi, Hiss, Hr. auto.
Qed.

Lemma apply_fetches_witness :
  let w := step everyRender (EditPendingRange hour) loadedDay in
  let w' := step everyRender (ApplyFilters false) w in
  pendingRange (st w) <> range (st w) /\
  issued w' = S (issued w) /\ loading (st w') = true /\ error (st w') = None.
Proof.
  intros w w'.
  assert (Hne : pendingRange (st w) <> range (st w)) by (vm_compute; discriminate).
  destruct (apply_fetches everyRender false w) as (_ & _ & H).
  destruct (H Hne) as (_ & H2 & H3 & H4).
  split; [exact Hne | split; [exact H2 | split; [exact H3 | exact H4]]].
Defined.

Lemma apply_fixed (fromSheet : bool) (s : AppState) :
  range s = pendingRange s -> minMag s = pendingMinMag s ->
  query s = pendingQuery s -> selected s = None -> autoFitEnabled s = true ->
  (fromSheet = true -> sidebarOpen s = false) ->
  (let s1 := setQuery (pendingQuery s)
               (setMinMag (pendingMinMag s) (setRange (pendingRange s) s)) in
   let s2 := if fromSheet then setSidebarOpen false s1 else s1 in
   setAutoFitEnabled true (setSelected None s2)) = s.
Proof.
  destruct s; simpl. intros <- <- <- -> -> Hs.
  destruct fromSheet; [rewrite (Hs eq_refl)|]; reflexivity.
Qed.

(** X13: applying the filters a second time changes no state cell and
    issues no fetch. *)
Theorem apply_twice (fitDue : nat -> bool) (fromSheet : bool) (w : World) :
  let w1 := step fitDue (ApplyFilters fromSheet) w in
  let w2 := step fitDue (ApplyFilters fromSheet) w1 in
  st w2 = st w1 /\ inFlight w2 = inFlight w1 /\ issued w2 = issued w1.
Proof.
  intros w1 w2.
  assert (Hfix : st (handle (ApplyFilters fromSheet) w1) = st w1).
  { subst w1. unfold step. simpl.
    rewrite commit_st.
    set (sh := st (handle (ApplyFilters fromSheet) w)).
    assert (Hsh : range sh = pendingRange sh /\ minMag sh = pendingMinMag sh /\
                  query sh = pendingQuery sh /\ selected sh = None /\
                  autoFitEnabled sh = true /\
                  (fromSheet = true -> sidebarOpen sh = false)).
    { subst sh. destruct fromSheet; simpl; repeat split; auto; discriminate. }
    destruct Hsh as (H1 & H2 & H3 & H4 & H5 & H6).
    apply apply_fixed; unfold afterEffects;
      destruct (TimeRange_eqb _ _); destruct (_ =? _)%nat; simpl; auto. }
  assert (Hin : inFlight (handle (ApplyFilters fromSheet) w1) = inFlight w1 /\
                issued (handle (ApplyFilters fromSheet) w1) = issued w1)
    by (destruct fromSheet; split; reflexivity).
  assert (Hstep : step fitDue (ApplyFilters fromSheet) w1
                  = render fitDue (handle (ApplyFilters fromSheet) w1)).
  { unfold step. apply commit_same_deps; now rewrite Hfix. }
  subst w2. rewrite Hstep.
  destruct (render_frame fitDue (handle (ApplyFilters fromSheet) w1))
    as (-> & -> & -> & _).
  destruct Hin as (-> & ->). auto.
Qed.

(** X14: when the fetch that is still active succeeds, its features replace
    the collection as a whole, the loading flag and the error are clear, and
    the map shows the markers of exactly the new features that pass the
    active filter; the page goes back to 1 when the count of the filtered set
    changed and stays otherwise. *)
Theorem fetched_data_shown (fitDue : nat -> bool) (evs : list Event) (r : nat)
  (req : Request) (p : Promise Response) (geo : EarthquakeGeoJSON) :
  let w := run fitDue evs mount in
  find_request r (inFlight w) = Some req ->
  isActive req = true ->
  fetchEarthquakes (fun _ => p) (requested req) = Resolved geo ->
  let s := st w in
  let s' := st (step fitDue (TransportSettled r p) w) in
  data s' = features geo /\ loading s' = false /\ error s' = None /\
  markers s' = filtered (minMag s) (query s) (features geo) /\
  page s' = (if sameCount s s' then page s else 1).
Proof.
  intros w Hfind Hact Hres s s'.
  destruct (run_invariants fitDue evs mount (mount_invariants))
    as (_ & (_ & Hl & He) & _).
  fold w in Hl, He.
  assert (Herr : error s = None).
  { apply He. rewrite Hl. apply existsb_exists. exists req.
    split; [now apply (find_request_In r) | exact Hact]. }
  assert (Hs' : s' = afterEffects s (setLoading false (setData (features geo) s))).
  { subst s'. unfold step, handle. rewrite Hfind, Hact, Hres.
    now rewrite commit_st. }
  rewrite Hs'. unfold afterEffects, sameCount.
  replace (range (setLoading false (setData (features geo) s))) with (range s)
    by reflexivity.
  rewrite (proj2 (TimeRange_eqb_eq (range s) (range s)) eq_refl).
  rewrite !sortedOf_length.
  destruct (Nat.eqb_spec (List.length (filteredOf s))
              (List.length (filteredOf (setLoading false
                                          (setData (features geo) s)))))
    as [Hc|Hc].
  - unfold markers, mapLayerShown. simpl. rewrite Herr. simpl.
    repeat split. now rewrite Hc, Nat.eqb_refl.
  - unfold markers, mapLayerShown. simpl. rewrite Herr. simpl.
    repeat split.
    destruct (Nat.eqb_spec (List.length (filteredOf s))
                (List.length (filteredOf
                   (setAutoFitEnabled true
                      (setPage 1 (setLoading false (setData (features geo) s)))))));
      [contradiction | reflexivity].
Qed.

Lemma fetched_data_shown_witness :
  let s' := st (step everyRender (TransportSettled 0 dayFeed) mount) in
  map id (data s') = ["ak1"; "jp1"]%string /\
  loading s' = false /\ error s' = None /\
  map id (markers s') = ["ak1"; "jp1"]%string.
Proof.
  destruct (fetched_data_shown everyRender [] 0
              {| rid := 0; requested := day; isActive := true |}
              dayFeed {| features := [anchorage; tokyo] |}
              eq_refl eq_refl eq_refl) as (Hd & Hl & He & Hm & _).
  change (run everyRender [] mount) with mount in Hd, Hl, He, Hm.
  cbv zeta. rewrite Hd, Hm.
  split; [reflexivity | split; [exact Hl | split; [exact He | reflexivity]]].
Defined.

(** X15: the selection changes only with a pick, an application of the
    filters or the closing of the dialog; every other event leaves it, also
    a fetch that replaces the collection with one that does not contain
    the selected event. *)
Theorem selection_kept (fitDue : nat -> bool) (ev : Event) (w : World) :
  setsSelection ev = false ->
  selected (st (step fitDue ev w)) = selected (st w).
Proof.
  intros Hev. unfold step. rewrite commit_st.
  destruct (afterEffects_cells (st w) (st (handle ev w)))
    as (_ & _ & _ & _ & _ & _ & ->).
  destruct ev; simpl in *; try discriminate; try reflexivity.
  - now destruct (existsb _ _).
  - now destruct (_ >? _).
  - now destruct (_ <? _).
  - destruct open; [reflexivity | discriminate].
  - destruct (find_request r (inFlight w)) as [req|]; [|reflexivity].
    now destruct (settle_view (isActive req)
                    (fetchEarthquakes (fun _ => p) (requested req))
                    (withInFlight (remove_request r (inFlight w)) w))
      as (_ & -> & _).
Qed.

Lemma selection_kept_witness :
  let w := step everyRender (PickEvent tokyo) awaitingHour in
  let w' := step everyRender (TransportSettled 1 hourFeed) w in
  selected (st w') = Some tokyo /\ ~ In tokyo (data (st w')).
Proof.
  intros w w'. split.
  - subst w'. rewrite (selection_kept everyRender (TransportSettled 1 hourFeed) w eq_refl).
    reflexivity.
  - vm_compute. intros [H|[H|[H|[]]]]; discriminate.
Defined.

(** ** The feed client: failures *)

(** X16: the four ranges have four different feed addresses. *)
Theorem FEED_BY_RANGE_inj (a b : TimeRange) :
  FEED_BY_RANGE a = FEED_BY_RANGE b -> a = b.
Proof. destruct a, b; simpl; intros H; try reflexivity; discriminate. Qed.

Lemma FEED_BY_RANGE_inj_witness : hour = hour.
Proof. apply (FEED_BY_RANGE_inj hour hour). reflexivity. Defined.

(** X17: [fetchEarthquakes] fails in exactly three ways: the transport
    rejects, and its error is passed on; the status is outside 200..299, and
    the error carries the status, whatever the body is; the status is within
    200..299 and the body does not parse, and the error of the parser is
    passed on. *)
Theorem fetchEarthquakes_failures
  (fetch : string -> Promise Response) (range : TimeRange) (e : JsError) :
  fetchEarthquakes fetch range = Rejected e <->
  fetch (FEED_BY_RANGE range) = Rejected e \/
  exists response,
    fetch (FEED_BY_RANGE range) = Resolved response /\
    ((ok response = false /\ e = ErrorObj (failureMessage (status response))) \/
     (ok response = true /\ json response = Rejected e)).
Proof.
  unfold fetchEarthquakes.
  destruct (fetch (FEED_BY_RANGE range)) as [response|e'] eqn:Hf; simpl.
  - destruct (ok response) eqn:Hok; simpl.
    + destruct (json response) as [geo|e''] eqn:Hj; simpl; split.
      * discriminate.
      * intros [H | (x & [= <-] & [(H & _) | (_ & H)])]; congruence.
      * intros [= <-]. right. exists response. auto.
      * intros [H | (x & [= <-] & [(H & _) | (_ & H)])]; congruence.
    + split.
      * intros [= <-]. right. exists response. auto.
      * intros [H | (x & [= <-] & [(_ & ->) | (H & _)])]; congruence.
  - split.
    + intros [= <-]. now left.
    + intros [[= <-] | (x & H & _)]; [reflexivity | discriminate].
Qed.

(** ** Derived statistics *)










(** ** Markers *)


(** X21: the colour of the marker, the class of the badge in the list and
    the dot of the popup of an event always belong to one band of its
    magnitude (null as 0): red above 6, orange and yellow above 4, green
    otherwise, also for [NaN]; the dot is the background class of the
    badge. *)
Theorem magnitude_bands (f : EarthquakeFeature) :
  let m := or_else (mag (properties f)) 0%float in
  ((6 <? m)%float = true /\ markerColor f = "red"%string /\
   getMagnitudeColorClass m = "bg-red-500 text-white"%string /\
   popupDotClass f = Some "bg-red-500"%string) \/
  ((6 <? m)%float = false /\ (4 <? m)%float = true /\
   markerColor f = "orange"%string /\
   getMagnitudeColorClass m = "bg-yellow-500 text-black"%string /\
   popupDotClass f = Some "bg-yellow-500"%string) \/
  ((6 <? m)%float = false /\ (4 <? m)%float = false /\
   markerColor f = "green"%string /\
   getMagnitudeColorClass m = "bg-green-500 text-white"%string /\
   popupDotClass f = Some "bg-green-500"%string).
Proof.
  intros m. unfold markerColor, popupDotClass, getMagnitudeColor,
    getMagnitudeColorClass. fold m.
  destruct (6 <? m)%float; [left; repeat split|].
  destruct (4 <? m)%float; right; [left | right]; repeat split.
Qed.

Example marker_without_magnitude :
  let f := quake "d" None None None in
  markerRadius f = 3%float /\ markerColor f = "green"%string.
Proof. vm_compute. split; reflexivity. Qed.
